(** * Feriecenter Generator: a model of [App.tsx]

    The React component [App] keeps seven [useState] cells and one ref, and
    changes them from three handlers ([handleFileChange],
    [handleGenerateVideo], [resetState]) and one interval callback.  The
    handlers are embedded as functions on a record of the cells; the
    asynchronous body of [handleGenerateVideo] runs in a small monad that
    records every call it makes and knows three ways an [await] can end:
    with a value, with a thrown error, or not at all.  The video provider
    (the [@google/genai] client and [fetch]) is a script the model takes as
    an argument. *)

From Stdlib Require Import String Ascii List ZArith Lia Bool.
From Stdlib Require Import DecimalString.
Import ListNotations.
Open Scope string_scope.

(** ** JavaScript strings and truthiness *)

Module JS.

(** [s.startsWith(p)] *)
Definition startsWith (s p : string) : bool := String.prefix p s.

(** [s.includes(p)]: [p] occurs somewhere in [s]. *)
Fixpoint includes (s p : string) : bool :=
  String.prefix p s
  || match s with
     | EmptyString => false
     | String _ rest => includes rest p
     end.

(** A [string | null | undefined] value in a condition: only a non-empty
    string counts as true. *)
Definition truthy (v : option string) : bool :=
  match v with
  | Some (String _ _) => true
  | _ => false
  end.

(** [v || d] for such a value. *)
Definition or_else (v : option string) (d : string) : string :=
  if truthy v then match v with Some s => s | None => d end else d.

(** A value interpolated in a template literal: [undefined] prints as the
    word. *)
Definition interpolate (v : option string) : string :=
  match v with
  | Some s => s
  | None => "undefined"
  end.

(** [xs.indexOf(x)]: position of the first occurrence, [-1] when absent. *)
Fixpoint indexOf (xs : list string) (x : string) : Z :=
  match xs with
  | [] => -1
  | y :: ys =>
      if String.eqb y x then 0
      else let i := indexOf ys x in
           if (i <? 0)%Z then -1 else (i + 1)%Z
  end%Z.

(** The thrown value seen by a [catch (e: any)], as far as the handler looks
    at it: its [message] property, absent for a value without one. *)
Record Error := { message : option string }.

Definition new_Error (msg : string) : Error := {| message := Some msg |}.

End JS.

(** ** Files, blobs and the object-URL store of the browser *)

(** A [File] as the component uses it: its declared [type], and [base64],
    the part after the comma of the data URL a [FileReader] produces for it
    (files whose read fails are outside this model). *)
Record File := { file_name : string; type : string; base64 : string }.

Definition Blob := string.

Inductive Obj :=
| OfFile (f : File)
| OfBlob (b : Blob).

(** [URL.createObjectURL] registers its argument under a URL nobody else
    holds.  An entry stays until [URL.revokeObjectURL] removes it; the
    component never calls that. *)
Record Browser := { minted : nat; objectURLs : list (string * Obj) }.

Definition blob_url (n : nat) : string :=
  "blob:" ++ NilZero.string_of_uint (Nat.to_uint n).

Definition createObjectURL (o : Obj) (b : Browser) : string * Browser :=
  let u := blob_url (minted b) in
  (u, {| minted := S (minted b); objectURLs := (u, o) :: objectURLs b |}).

Definition fresh_browser : Browser := {| minted := 0; objectURLs := [] |}.

(** ** The component's state *)

Definition loadingMessages : list string :=
  [ "Kontakter arkitekterne...";
    "Bestiller rutsjebaner i alle regnbuens farver...";
    "Puster badedyr op...";
    "Tegner byggeplaner...";
    "Hælder vand i swimmingpoolen...";
    "Sætter prikken over i'et..." ].

(** [loadingMessages[i]]; the cell holds a [string], and every index the
    component computes is in range (lemma [nextIndex_in_range]). *)
Definition loadingMessages_at (i : Z) : string :=
  nth (Z.to_nat i) loadingMessages "".

Record State := {
  isKeySelected : bool;
  imageFile : option File;
  imagePreview : option string;
  isLoading : bool;
  loadingMessage : string;
  error : option string;
  videoUrl : option string;
  (* [fileInputRef.current]: [None] while the input is not mounted, else the
     value of the element. *)
  fileInputRef : option string
}.

Definition initial_state : State :=
  {| isKeySelected := true;
     imageFile := None;
     imagePreview := None;
     isLoading := false;
     loadingMessage := loadingMessages_at 0;
     error := None;
     videoUrl := None;
     fileInputRef := Some "" |}.

Definition setImageFile (v : option File) (s : State) : State :=
  {| isKeySelected := isKeySelected s; imageFile := v;
     imagePreview := imagePreview s; isLoading := isLoading s;
     loadingMessage := loadingMessage s; error := error s;
     videoUrl := videoUrl s; fileInputRef := fileInputRef s |}.

Definition setImagePreview (v : option string) (s : State) : State :=
  {| isKeySelected := isKeySelected s; imageFile := imageFile s;
     imagePreview := v; isLoading := isLoading s;
     loadingMessage := loadingMessage s; error := error s;
     videoUrl := videoUrl s; fileInputRef := fileInputRef s |}.

Definition setIsLoading (v : bool) (s : State) : State :=
  {| isKeySelected := isKeySelected s; imageFile := imageFile s;
     imagePreview := imagePreview s; isLoading := v;
     loadingMessage := loadingMessage s; error := error s;
     videoUrl := videoUrl s; fileInputRef := fileInputRef s |}.

Definition setLoadingMessage (v : string) (s : State) : State :=
  {| isKeySelected := isKeySelected s; imageFile := imageFile s;
     imagePreview := imagePreview s; isLoading := isLoading s;
     loadingMessage := v; error := error s;
     videoUrl := videoUrl s; fileInputRef := fileInputRef s |}.

Definition setError (v : option string) (s : State) : State :=
  {| isKeySelected := isKeySelected s; imageFile := imageFile s;
     imagePreview := imagePreview s; isLoading := isLoading s;
     loadingMessage := loadingMessage s; error := v;
     videoUrl := videoUrl s; fileInputRef := fileInputRef s |}.

Definition setVideoUrl (v : option string) (s : State) : State :=
  {| isKeySelected := isKeySelected s; imageFile := imageFile s;
     imagePreview := imagePreview s; isLoading := isLoading s;
     loadingMessage := loadingMessage s; error := error s;
     videoUrl := v; fileInputRef := fileInputRef s |}.

Definition setFileInputValue (v : string) (s : State) : State :=
  {| isKeySelected := isKeySelected s; imageFile := imageFile s;
     imagePreview := imagePreview s; isLoading := isLoading s;
     loadingMessage := loadingMessage s; error := error s;
     videoUrl := videoUrl s;
     fileInputRef := match fileInputRef s with
                     | Some _ => Some v
                     | None => None
                     end |}.

(** ** The loading-message interval *)

(** The updater handed to [setLoadingMessage] every 3000 ms. *)
Definition nextIndex (prev : string) : Z :=
  Z.rem (JS.indexOf loadingMessages prev + 1) (Z.of_nat (length loadingMessages)).

Definition nextLoadingMessage (prev : string) : string :=
  loadingMessages_at (nextIndex prev).

Definition messageInterval : Z := 3000.

(** The effect installs the interval only while [isLoading] holds. *)
Definition tick (s : State) : State :=
  if isLoading s then setLoadingMessage (nextLoadingMessage (loadingMessage s)) s
  else s.

(** ** File selection and reset *)

Definition invalidFileMessage : string := "Vælg venligst en gyldig billedfil.".

(** [file] is [event.target.files?.[0]]. *)
Definition handleFileChange (file : option File) (s : State) (b : Browser)
  : State * Browser :=
  match file with
  | Some f =>
      if JS.startsWith (type f) "image/" then
        let s1 := setImageFile (Some f) s in
        let (u, b') := createObjectURL (OfFile f) b in
        let s2 := setImagePreview (Some u) s1 in
        (setError None s2, b')
      else
        let s1 := setError (Some invalidFileMessage) s in
        let s2 := setImageFile None s1 in
        (setImagePreview None s2, b)
  | None => (s, b)
  end.

Definition resetState (s : State) : State :=
  let s1 := setImageFile None s in
  let s2 := setImagePreview None s1 in
  let s3 := setIsLoading false s2 in
  let s4 := setError None s3 in
  let s5 := setVideoUrl None s4 in
  setFileInputValue "" s5.

(** ** The video provider, as far as the component talks to it *)

Record InlineData := { data : string; mimeType : string }.
Record GenerativePart := { inlineData : InlineData }.

Record Image := { imageBytes : string; image_mimeType : string }.
Record VideoConfig := {
  numberOfVideos : Z;
  resolution : string;
  aspectRatio : string
}.
Record GenerateVideosParameters := {
  model : string;
  prompt : string;
  image : Image;
  config : VideoConfig
}.

Record Video := { uri : option string }.
Record GeneratedVideo := { video : option Video }.
Record GenerateVideosResponse := {
  generatedVideos : option (list GeneratedVideo)
}.

(** The operation handle; [done] and [response] are optional properties. *)
Record Operation := {
  name : string;
  done : option bool;
  response : option GenerateVideosResponse
}.

(** How a promise ends. *)
Inductive Settled (A : Type) :=
| Resolved (a : A)
| Rejected (e : JS.Error)
| Never.
Arguments Resolved {A} a.
Arguments Rejected {A} e.
Arguments Never {A}.

Record FetchResponse := {
  ok : bool;
  statusText : string;
  blob : Settled Blob
}.

(** A scripted provider: what the constructor does with the key, what
    [generateVideos] answers, the answers of the successive
    [getVideosOperation] calls (a call past the end of the script is never
    answered), and what [fetch] answers for a URL. *)
Record Provider := {
  construct : option string -> option JS.Error;
  generateVideos : GenerateVideosParameters -> Settled Operation;
  getVideosOperation : list (Settled Operation);
  fetch : string -> Settled FetchResponse
}.

(** [process.env] and the provider behind the imports. *)
Record Env := { API_KEY : option string; provider : Provider }.

(** ** Calls the handler makes, in the order it makes them *)

Inductive Effect :=
| NewGoogleGenAI (apiKey : option string)
| ReadAsDataURL (file : File)
| GenerateVideos (params : GenerateVideosParameters)
| SetTimeout (ms : Z)
| GetVideosOperation (operation : Operation)
| Fetch (url : string)
| ReadBlob
| ConsoleError (e : JS.Error).

Definition is_network_call (c : Effect) : bool :=
  match c with
  | GenerateVideos _ | GetVideosOperation _ | Fetch _ | ReadBlob => true
  | _ => false
  end.

Definition is_poll (c : Effect) : bool :=
  match c with
  | GetVideosOperation _ => true
  | _ => false
  end.

(** The handles passed to [getVideosOperation], in order. *)
Fixpoint polled (t : list Effect) : list Operation :=
  match t with
  | [] => []
  | GetVideosOperation o :: rest => o :: polled rest
  | _ :: rest => polled rest
  end.

(** ** A monad for the body of the [try] block

    A computation has made some calls and then either holds a value, has
    thrown, or is suspended on an [await] that never resumes. *)

Inductive Result (A : Type) :=
| Ok (a : A)
| Throw (e : JS.Error)
| Pending.
Arguments Ok {A} a.
Arguments Throw {A} e.
Arguments Pending {A}.

Definition Async (A : Type) : Type := list Effect * Result A.

Definition ret {A} (a : A) : Async A := ([], Ok a).

Definition throw {A} (e : JS.Error) : Async A := ([], Throw e).

Definition bind {A B} (m : Async A) (k : A -> Async B) : Async B :=
  match m with
  | (t, Ok a) => let (t', r) := k a in ((t ++ t')%list, r)
  | (t, Throw e) => (t, Throw e)
  | (t, Pending) => (t, Pending)
  end.

Notation "x <- m ;; k" := (bind m (fun x => k))
  (at level 61, m at next level, right associativity).
Notation "m ;;; k" := (bind m (fun _ => k))
  (at level 61, right associativity).

(** [await p] after making the call [c]. *)
Definition await {A} (c : Effect) (p : Settled A) : Async A :=
  ([c], match p with
        | Resolved a => Ok a
        | Rejected e => Throw e
        | Never => Pending
        end).

Definition trace {A} (m : Async A) : list Effect := fst m.
Definition result {A} (m : Async A) : Result A := snd m.

(** ** [handleGenerateVideo] *)

Definition noImageMessage : string := "Upload venligst et billede først.".
Definition noVideoMessage : string :=
  "Videogenerering mislykkedes, eller der blev ikke returneret nogen video.".
Definition unknownErrorMessage : string := "En ukendt fejl opstod.".
Definition entityNotFound : string := "Requested entity was not found.".
Definition invalidKeyMessage : string :=
  "Din API nøgle er muligvis ugyldig. Tjek dine environment variabler.".
Definition pollInterval : Z := 10000.

Definition fileToGenerativePart (file : File) : Async GenerativePart :=
  await (ReadAsDataURL file)
        (Resolved {| inlineData := {| data := base64 file; mimeType := type file |} |}).

Definition videoRequest (imagePart : GenerativePart) : GenerateVideosParameters :=
  {| model := "veo-3.1-fast-generate-preview";
     prompt := "Animer et feriecenter, der bliver bygget oven på dette hus. Tilføj farverige rutsjebaner, der kommer ud af vinduerne, en stor swimmingpool i forhaven og en festlig, glad atmosfære.";
     image := {| imageBytes := data (inlineData imagePart);
                 image_mimeType := mimeType (inlineData imagePart) |};
     config := {| numberOfVideos := 1;
                  resolution := "720p";
                  aspectRatio := "16:9" |} |}.

(** [operation.done] in a condition. *)
Definition is_done (operation : Operation) : bool :=
  match done operation with
  | Some true => true
  | _ => false
  end.

(** [while (!operation.done) { await timeout; operation = await get }] *)
Fixpoint poll_loop (operation : Operation) (script : list (Settled Operation))
  {struct script} : Async Operation :=
  if is_done operation then ret operation
  else
    await (SetTimeout pollInterval) (Resolved tt) ;;;
    match script with
    | [] => await (GetVideosOperation operation) Never
    | answer :: rest =>
        operation' <- await (GetVideosOperation operation) answer ;;
        poll_loop operation' rest
    end.

(** [operation.response?.generatedVideos?.[0]?.video?.uri] *)
Definition result_uri (operation : Operation) : option string :=
  match response operation with
  | Some r =>
      match generatedVideos r with
      | Some (g :: _) =>
          match video g with
          | Some v => uri v
          | None => None
          end
      | _ => None
      end
  | None => None
  end.

Definition try_block (env : Env) (imageFile : File) : Async Blob :=
  match construct (provider env) (API_KEY env) with
  | Some e => ([NewGoogleGenAI (API_KEY env)], Throw e)
  | None =>
    ([NewGoogleGenAI (API_KEY env)], Ok tt) ;;;
    imagePart <- fileToGenerativePart imageFile ;;
    operation0 <-
      await (GenerateVideos (videoRequest imagePart))
            (generateVideos (provider env) (videoRequest imagePart)) ;;
    operation <- poll_loop operation0 (getVideosOperation (provider env)) ;;
    if JS.truthy (result_uri operation) then
      let downloadLink := JS.interpolate (result_uri operation) in
      let url := downloadLink ++ "&key=" ++ JS.interpolate (API_KEY env) in
      videoResponse <- await (Fetch url) (fetch (provider env) url) ;;
      if negb (ok videoResponse) then
        throw (JS.new_Error ("Failed to download video: " ++ statusText videoResponse))
      else
        await ReadBlob (blob videoResponse)
    else
      throw (JS.new_Error noVideoMessage)
  end.

(** The message the [catch] block hands to [setError]. *)
Definition errorMessage (e : JS.Error) : string :=
  let errorMessage := JS.or_else (JS.message e) unknownErrorMessage in
  if JS.includes errorMessage entityNotFound then invalidKeyMessage
  else errorMessage.

(** The synchronous head of the handler: the guard, then the four setters.
    Its second component is the file the attempt captured, when one starts. *)
Definition generate_begin (s : State) : State * option File :=
  match imageFile s with
  | None => (setError (Some noImageMessage) s, None)
  | Some f =>
      let s1 := setIsLoading true s in
      let s2 := setVideoUrl None s1 in
      let s3 := setError None s2 in
      (setLoadingMessage (loadingMessages_at 0) s3, Some f)
  end.

(** The tail of the handler, run when the [try] block is over: the last
    statements of [try], or [catch], and then [finally].  Every setter in it
    writes a value that does not depend on the state it finds. *)
Definition generate_settle (r : Result Blob) (s : State) (b : Browser)
  : State * Browser * list Effect :=
  match r with
  | Ok videoBlob =>
      let (url, b') := createObjectURL (OfBlob videoBlob) b in
      (setIsLoading false (setVideoUrl (Some url) s), b', [])
  | Throw e =>
      (setIsLoading false (setError (Some (errorMessage e)) s), b, [ConsoleError e])
  | Pending => (s, b, [])
  end.

Definition is_settled {A} (r : Result A) : bool :=
  match r with
  | Pending => false
  | _ => true
  end.

(** One invocation with nothing else happening in between. *)
Record Run := {
  run_state : State;
  run_browser : Browser;
  run_trace : list Effect;
  run_finished : bool
}.

Definition handleGenerateVideo (env : Env) (s : State) (b : Browser) : Run :=
  match generate_begin s with
  | (s1, None) =>
      {| run_state := s1; run_browser := b; run_trace := []; run_finished := true |}
  | (s1, Some f) =>
      let body := try_block env f in
      let '(s2, b2, t2) := generate_settle (result body) s1 b in
      {| run_state := s2; run_browser := b2;
         run_trace := (trace body ++ t2)%list;
         run_finished := is_settled (result body) |}
  end.

(** ** What is on screen *)

Inductive View :=
| Loader (message : string)
| VideoPlayer (src : string)
| UploadForm (shown_error : option string) (preview : option string).

(** The conditional in the component's JSX. *)
Definition render (s : State) : View :=
  if isLoading s then Loader (loadingMessage s)
  else if JS.truthy (videoUrl s) then VideoPlayer (JS.interpolate (videoUrl s))
  else UploadForm (if JS.truthy (error s) then error s else None)
                  (if JS.truthy (imagePreview s) then imagePreview s else None).

(** ** The component over time

    Handlers run one at a time; an attempt started by a click stays in flight
    until its [try] block is over, and everything else may happen meanwhile. *)

Record Config := {
  state : State;
  browser : Browser;
  inflight : list (Result Blob)
}.

Inductive Event :=
| FileChange (file : option File)
| ClickGenerate (env : Env)
| Settle (n : nat)
| Tick
| ClickReset.

Fixpoint remove_nth {A} (n : nat) (xs : list A) : list A :=
  match n, xs with
  | _, [] => []
  | O, _ :: rest => rest
  | S m, x :: rest => x :: remove_nth m rest
  end.

Definition react (ev : Event) (c : Config) : Config :=
  match ev with
  | FileChange file =>
      let (s, b) := handleFileChange file (state c) (browser c) in
      {| state := s; browser := b; inflight := inflight c |}
  | ClickGenerate env =>
      match generate_begin (state c) with
      | (s, None) => {| state := s; browser := browser c; inflight := inflight c |}
      | (s, Some f) =>
          {| state := s; browser := browser c;
             inflight := (inflight c ++ [result (try_block env f)])%list |}
      end
  | Settle n =>
      match nth_error (inflight c) n with
      | Some r =>
          if is_settled r then
            let '(s, b, _) := generate_settle r (state c) (browser c) in
            {| state := s; browser := b; inflight := remove_nth n (inflight c) |}
          else c
      | None => c
      end
  | Tick => {| state := tick (state c); browser := browser c; inflight := inflight c |}
  | ClickReset =>
      {| state := resetState (state c); browser := browser c; inflight := inflight c |}
  end.

Definition initial_config : Config :=
  {| state := initial_state; browser := fresh_browser; inflight := [] |}.

Definition play (evs : list Event) (c : Config) : Config :=
  fold_left (fun c ev => react ev c) evs c.

Definition reachable (c : Config) : Prop :=
  exists evs, play evs initial_config = c.

(** The selection and its preview are both there or both absent. *)
Definition paired (s : State) : Prop :=
  imageFile s <> None <-> imagePreview s <> None.

(** The part of the state the upload side owns. *)
Definition selection (s : State) : option File * option string * option string :=
  (imageFile s, imagePreview s, error s).

(** The calls of a polling phase that asked once for each handle of [ops]:
    a 10 s wait, then the query. *)
Definition waits_and_polls (ops : list Operation) : list Effect :=
  flat_map (fun o => [SetTimeout pollInterval; GetVideosOperation o]) ops.

(** [m] has [p] as a substring. *)
Definition contains (m p : string) : Prop :=
  exists pre post, m = pre ++ p ++ post.

(** The [done] flags a script answers with, the answer of [generateVideos]
    first. *)
Definition done_flags (start : Operation) (answers : list Operation) : list bool :=
  map is_done (start :: answers).

(** ** Sample inputs *)

Module Sample.

Definition house : File :=
  {| file_name := "hus.png"; type := "image/png"; base64 := "aHVz" |}.

Definition notes : File :=
  {| file_name := "noter.txt"; type := "text/plain"; base64 := "bm90ZXI=" |}.

Definition link : string := "https://video.example/v1/files/7:download?alt=media".

Definition running : Operation :=
  {| name := "operations/77"; done := Some false; response := None |}.

Definition finished : Operation :=
  {| name := "operations/77"; done := Some true;
     response :=
       Some {| generatedVideos := Some [ {| video := Some {| uri := Some link |} |} ] |} |}.

Definition empty_handed : Operation :=
  {| name := "operations/77"; done := Some true;
     response := Some {| generatedVideos := Some [] |} |}.

Definition served (url : string) : Settled FetchResponse :=
  Resolved {| ok := true; statusText := "OK"; blob := Resolved "mp4" |}.

Definition refused (url : string) : Settled FetchResponse :=
  Resolved {| ok := false; statusText := "Forbidden"; blob := Never |}.

Definition scripted (start : Settled Operation) (answers : list (Settled Operation))
           (net : string -> Settled FetchResponse) : Env :=
  {| API_KEY := Some "K";
     provider := {| construct := fun _ => None;
                    generateVideos := fun _ => start;
                    getVideosOperation := answers;
                    fetch := net |} |}.

(** Not done at the start, then not done once, then done. *)
Definition two_polls : Env :=
  scripted (Resolved running) [Resolved running; Resolved finished] served.

(** Not done at the start, then not done twice, then done. *)
Definition three_polls : Env :=
  scripted (Resolved running)
           [Resolved running; Resolved running; Resolved finished] served.

Definition no_video : Env :=
  scripted (Resolved running) [Resolved empty_handed] served.

Definition bad_download : Env :=
  scripted (Resolved finished) [] refused.

Definition bad_key : Env :=
  scripted (Rejected (JS.new_Error "404: Requested entity was not found. (models/veo)"))
           [] served.

Definition selected : Config := react (FileChange (Some house)) initial_config.

End Sample.

(** Names for the pieces of [try_block], to state what it does: the part
    the file becomes, the calls made before polling starts, and the
    statements that follow the loop. *)
Definition imagePartOf (file : File) : GenerativePart :=
  {| inlineData := {| data := base64 file; mimeType := type file |} |}.

Definition before_polling (env : Env) (file : File) : list Effect :=
  [ NewGoogleGenAI (API_KEY env);
    ReadAsDataURL file;
    GenerateVideos (videoRequest (imagePartOf file)) ].

Definition after_polling (env : Env) (operation : Operation) : Async Blob :=
  if JS.truthy (result_uri operation) then
    let downloadLink := JS.interpolate (result_uri operation) in
    let url := downloadLink ++ "&key=" ++ JS.interpolate (API_KEY env) in
    videoResponse <- await (Fetch url) (fetch (provider env) url) ;;
    if negb (ok videoResponse) then
      throw (JS.new_Error ("Failed to download video: " ++ statusText videoResponse))
    else
      await ReadBlob (blob videoResponse)
  else
    throw (JS.new_Error noVideoMessage).

(** ** More of the source: the data URL behind [fileToGenerativePart]

    [reader.readAsDataURL(file)] yields ["data:<type>;base64,<payload>"]
    for a file with a declared type; the promise resolves with
    [result.split(',')[1]]. *)

(** [s.split(sep)] for a one-character separator. *)
Fixpoint js_split (s : string) (sep : ascii) : list string :=
  match s with
  | EmptyString => [EmptyString]
  | String c rest =>
      if Ascii.eqb c sep then EmptyString :: js_split rest sep
      else match js_split rest sep with
           | part :: parts => String c part :: parts
           | [] => [String c EmptyString]
           end
  end.

Definition comma : ascii := ","%char.

Definition readAsDataURL_result (file : File) : string :=
  "data:" ++ type file ++ ";base64," ++ base64 file.

(** [(reader.result as string).split(',')[1]]; [None] is [undefined]. *)
Definition base64EncodedData (reader_result : string) : option string :=
  nth_error (js_split reader_result comma) 1.

(** [c] does not occur in [s]. *)
Fixpoint lacks (c : ascii) (s : string) : bool :=
  match s with
  | EmptyString => true
  | String d rest => negb (Ascii.eqb d c) && lacks c rest
  end.

(** ** More ways to look at a trace of calls *)

Definition is_wait (c : Effect) : bool :=
  match c with
  | SetTimeout _ => true
  | _ => false
  end.

Definition is_start (c : Effect) : bool :=
  match c with
  | GenerateVideos _ => true
  | _ => false
  end.

(** The URLs handed to [fetch], in order. *)
Fixpoint fetched (t : list Effect) : list string :=
  match t with
  | [] => []
  | Fetch u :: rest => u :: fetched rest
  | _ :: rest => fetched rest
  end.

(** The URLs in state are entries of the object-URL store: the preview is
    registered for the stored file, the video URL for some blob. *)
Definition urls_registered (c : Config) : Prop :=
  (forall f, imageFile (state c) = Some f ->
     exists u, imagePreview (state c) = Some u
               /\ In (u, OfFile f) (objectURLs (browser c)))
  /\ (forall u, videoUrl (state c) = Some u ->
        exists videoBlob, In (u, OfBlob videoBlob) (objectURLs (browser c))).

(** An attempt started and not yet settled, two events later. *)
Definition sample_in_flight : Config :=
  play [FileChange (Some Sample.house); ClickGenerate Sample.three_polls]
       initial_config.

(** * Properties *)

(** ** Strings *)

Lemma prefix_append : forall p s,
  String.prefix p s = true <-> exists t, s = p ++ t.
Proof.
  induction p as [|a p IH]; intros s.
  - split; [intros _; now exists s | intros _; now destruct s].
  - destruct s as [|c s]; simpl.
    + split; [discriminate | intros [t Ht]; discriminate].
    + destruct (ascii_dec a c) as [->|Hac].
      * rewrite IH. split; intros [t Ht]; exists t.
        -- now rewrite Ht.
        -- now injection Ht.
      * split; [discriminate|].
        intros [t Ht]. injection Ht as Hc _. congruence.
Qed.

Lemma includes_contains : forall s p,
  JS.includes s p = true <-> contains s p.
Proof.
  unfold contains.
  induction s as [|a s IH]; intros p; cbn [JS.includes].
  - rewrite orb_false_r, prefix_append. split.
    + intros [t Ht]. now exists "", t.
    + intros [pre [post H]]. destruct pre; simpl in H.
      * now exists post.
      * discriminate.
  - rewrite orb_true_iff, prefix_append, IH. split.
    + intros [[t Ht]|[pre [post H]]].
      * now exists "", t.
      * exists (String a pre), post. simpl. now rewrite H.
    + intros [pre [post H]]. destruct pre as [|c pre]; simpl in H.
      * left. now exists post.
      * right. injection H as _ H. now exists pre, post.
Qed.

Lemma includes_false_contains : forall s p,
  JS.includes s p = false <-> ~ contains s p.
Proof.
  intros s p. rewrite <- includes_contains.
  destruct (JS.includes s p); split; congruence.
Qed.

Lemma blob_url_truthy : forall n, JS.truthy (Some (blob_url n)) = true.
Proof. reflexivity. Qed.

(** ** The setters touch one cell *)

Lemma resetState_idempotent : forall s, resetState (resetState s) = resetState s.
Proof.
  intros s. unfold resetState, setFileInputValue. simpl.
  destruct (fileInputRef s); reflexivity.
Qed.

(** ** The message rotation *)

Lemma nextIndex_in_range : forall prev,
  (0 <= nextIndex prev < Z.of_nat (length loadingMessages))%Z.
Proof.
  intros prev. unfold nextIndex.
  assert (H : (-1 <= JS.indexOf loadingMessages prev
               < Z.of_nat (length loadingMessages))%Z).
  { generalize loadingMessages as xs.
    induction xs as [|y ys IH]; simpl length.
    - simpl. lia.
    - cbn [JS.indexOf]. destruct (String.eqb y prev); [lia|].
      destruct (JS.indexOf ys prev <? 0)%Z eqn:E; [lia|].
      apply Z.ltb_ge in E. lia. }
  set (n := Z.of_nat (length loadingMessages)) in *.
  assert (0 < n)%Z by (subst n; simpl; lia).
  destruct (Z.eq_dec (JS.indexOf loadingMessages prev + 1) n) as [->|Hne].
  - rewrite Z.rem_same by lia. lia.
  - rewrite Z.rem_small by lia. lia.
Qed.

Lemma next_of_entry : forall i,
  (0 <= i < 6)%Z ->
  nextLoadingMessage (loadingMessages_at i) = loadingMessages_at ((i + 1) mod 6).
Proof.
  intros i Hi.
  assert (Hc : (i = 0 \/ i = 1 \/ i = 2 \/ i = 3 \/ i = 4 \/ i = 5)%Z) by lia.
  repeat (destruct Hc as [Hc|Hc]; [subst i; reflexivity|]).
  subst i; reflexivity.
Qed.

Lemma iterated_tick_message : forall k,
  Nat.iter k nextLoadingMessage (loadingMessages_at 0)
  = loadingMessages_at (Z.of_nat k mod 6).
Proof.
  induction k as [|k IH].
  - reflexivity.
  - rewrite Nat.iter_succ, IH, next_of_entry.
    + f_equal. rewrite Nat2Z.inj_succ. unfold Z.succ.
      rewrite Z.add_mod_idemp_l by lia. reflexivity.
    + apply Z.mod_pos_bound. lia.
Qed.

(** ** The polling loop *)

Lemma poll_loop_done : forall operation script,
  is_done operation = true -> poll_loop operation script = ret operation.
Proof. intros operation [|a script] H; simpl; now rewrite H. Qed.

Lemma poll_loop_resolved : forall operation operation' script,
  is_done operation = false ->
  poll_loop operation (Resolved operation' :: script)
  = (let (t, r) := poll_loop operation' script in
     (SetTimeout pollInterval :: GetVideosOperation operation :: t, r)).
Proof.
  intros operation operation' script H.
  cbn [poll_loop]. rewrite H. unfold bind, await. cbn.
  destruct (poll_loop operation' script) as [t r]. reflexivity.
Qed.

(** A script that answers not-done for each handle of [pre] and then done:
    one query per not-done handle seen, the first being the handle
    [generateVideos] returned. *)
Lemma poll_loop_script : forall pre operation0 last rest,
  Forall (fun o => is_done o = false) (operation0 :: pre) ->
  is_done last = true ->
  poll_loop operation0 (map Resolved pre ++ Resolved last :: rest)
  = (waits_and_polls (operation0 :: pre), Ok last).
Proof.
  induction pre as [|o pre IH]; intros operation0 last rest Hpre Hlast;
    inversion Hpre as [|? ? H0 Hrest]; subst.
  - cbn [map app]. rewrite poll_loop_resolved by assumption.
    rewrite poll_loop_done by assumption. reflexivity.
  - cbn [map app]. rewrite poll_loop_resolved by assumption.
    rewrite (IH o last rest Hrest Hlast). reflexivity.
Qed.

Lemma polled_waits_and_polls : forall ops, polled (waits_and_polls ops) = ops.
Proof.
  induction ops as [|o ops IH]; [reflexivity|].
  unfold waits_and_polls in *. simpl. now rewrite IH.
Qed.

Lemma polled_app : forall t1 t2, polled (t1 ++ t2) = (polled t1 ++ polled t2)%list.
Proof.
  induction t1 as [|c t1 IH]; intros t2; [reflexivity|].
  destruct c; simpl; rewrite IH; reflexivity.
Qed.

(** The loop hands back only a handle that is done. *)
Lemma poll_loop_ok_done : forall script operation t last,
  poll_loop operation script = (t, Ok last) -> is_done last = true.
Proof.
  induction script as [|a script IH]; intros operation t last H;
    destruct (is_done operation) eqn:E.
  - rewrite poll_loop_done in H by assumption. injection H as _ <-. assumption.
  - cbn [poll_loop] in H. rewrite E in H. discriminate.
  - rewrite poll_loop_done in H by assumption. injection H as _ <-. assumption.
  - destruct a as [o|e|].
    + rewrite poll_loop_resolved in H by assumption.
      destruct (poll_loop o script) as [t' r] eqn:E'.
      injection H as _ ->. eapply IH; eassumption.
    + cbn [poll_loop] in H. rewrite E in H. discriminate.
    + cbn [poll_loop] in H. rewrite E in H. discriminate.
Qed.

(** The loop makes no call besides waiting and querying. *)
Lemma poll_loop_trace : forall script operation,
  Forall (fun c => match c with
                   | SetTimeout _ | GetVideosOperation _ => True
                   | _ => False
                   end) (trace (poll_loop operation script)).
Proof.
  induction script as [|a script IH]; intros operation;
    destruct (is_done operation) eqn:E.
  - rewrite poll_loop_done by assumption. constructor.
  - cbn [poll_loop]. rewrite E. cbn. repeat constructor.
  - rewrite poll_loop_done by assumption. constructor.
  - destruct a as [o|e|].
    + rewrite poll_loop_resolved by assumption.
      specialize (IH o). destruct (poll_loop o script) as [t r].
      cbn in *. repeat constructor. assumption.
    + cbn [poll_loop]. rewrite E. cbn. repeat constructor.
    + cbn [poll_loop]. rewrite E. cbn. repeat constructor.
Qed.

(** ** The [try] block, piece by piece *)

Lemma try_block_construct_throws : forall env f e,
  construct (provider env) (API_KEY env) = Some e ->
  try_block env f = ([NewGoogleGenAI (API_KEY env)], Throw e).
Proof. intros env f e H. unfold try_block. now rewrite H. Qed.

Lemma try_block_unfold : forall env f,
  construct (provider env) (API_KEY env) = None ->
  try_block env f
  = (operation0 <- (before_polling env f,
                    match generateVideos (provider env) (videoRequest (imagePartOf f)) with
                    | Resolved a => Ok a
                    | Rejected e => Throw e
                    | Never => Pending
                    end) ;;
     operation <- poll_loop operation0 (getVideosOperation (provider env)) ;;
     after_polling env operation).
Proof.
  intros env f H. unfold try_block. rewrite H.
  fold (after_polling env).
  unfold fileToGenerativePart, await, before_polling.
  change {| inlineData := {| data := base64 f; mimeType := type f |} |}
    with (imagePartOf f).
  cbn [bind app].
  destruct (generateVideos (provider env) (videoRequest (imagePartOf f)))
    as [operation0|e|]; try reflexivity.
  destruct (bind (poll_loop operation0 _) _) as [t r]. reflexivity.
Qed.

Lemma try_block_polled : forall env f operation0 t last,
  construct (provider env) (API_KEY env) = None ->
  generateVideos (provider env) (videoRequest (imagePartOf f)) = Resolved operation0 ->
  poll_loop operation0 (getVideosOperation (provider env)) = (t, Ok last) ->
  try_block env f
  = ((before_polling env f ++ t ++ trace (after_polling env last))%list,
     result (after_polling env last)).
Proof.
  intros env f operation0 t last Hc Hs Hp.
  rewrite try_block_unfold by assumption. rewrite Hs.
  cbn [bind]. rewrite Hp. cbn [bind].
  destruct (after_polling env last) as [t' r]. reflexivity.
Qed.

Lemma after_polling_served : forall env operation link served videoBlob,
  result_uri operation = Some link -> link <> "" ->
  fetch (provider env) (link ++ "&key=" ++ JS.interpolate (API_KEY env))
    = Resolved served ->
  ok served = true -> blob served = Resolved videoBlob ->
  after_polling env operation
  = ([Fetch (link ++ "&key=" ++ JS.interpolate (API_KEY env)); ReadBlob], Ok videoBlob).
Proof.
  intros env operation link served videoBlob Hu Hne Hf Hok Hb.
  unfold after_polling. rewrite Hu.
  destruct link as [|a link]; [congruence|].
  cbn [JS.truthy JS.interpolate]. rewrite Hf.
  unfold bind, await. rewrite Hok, Hb. reflexivity.
Qed.

Lemma after_polling_no_uri : forall env operation,
  JS.truthy (result_uri operation) = false ->
  after_polling env operation = ([], Throw (JS.new_Error noVideoMessage)).
Proof. intros env operation H. unfold after_polling. now rewrite H. Qed.

Lemma errorMessage_noVideo :
  errorMessage (JS.new_Error noVideoMessage) = noVideoMessage.
Proof. reflexivity. Qed.

(** ** Claims *)

(** C1 (as amended).  With a selected image, a provider whose
    [generateVideos] answers a handle that is not done, whose
    [getVideosOperation] then answers the not-done handles [pre] one by one
    and after them a done handle carrying a non-empty result URI, and whose
    download succeeds: the handler queries once for every not-done handle it
    has seen, the start handle included, so [S (length pre)] times; every
    query comes right after a 10000 ms wait and passes the handle the
    previous call returned; nothing else is called in between; the handler
    finishes with the video URL set to the object URL of the fetched blob,
    the video view on screen, no error and the loading flag down.  So the
    answers not-done (start), not-done, done make two queries, and it takes
    a not-done start followed by not-done, not-done, done to make three. *)
Theorem generate_polls_once_per_pending_answer :
  forall env s b f operation0 pre last rest link served videoBlob,
    imageFile s = Some f ->
    construct (provider env) (API_KEY env) = None ->
    generateVideos (provider env) (videoRequest (imagePartOf f)) = Resolved operation0 ->
    getVideosOperation (provider env) = (map Resolved pre ++ Resolved last :: rest)%list ->
    Forall (fun o => is_done o = false) (operation0 :: pre) ->
    is_done last = true ->
    result_uri last = Some link -> link <> "" ->
    fetch (provider env) (link ++ "&key=" ++ JS.interpolate (API_KEY env))
      = Resolved served ->
    ok served = true -> blob served = Resolved videoBlob ->
    let r := handleGenerateVideo env s b in
    polled (run_trace r) = operation0 :: pre
    /\ length (filter is_poll (run_trace r)) = S (length pre)
    /\ run_trace r
       = (before_polling env f
          ++ waits_and_polls (operation0 :: pre)
          ++ [Fetch (link ++ "&key=" ++ JS.interpolate (API_KEY env)); ReadBlob])%list
    /\ run_finished r = true
    /\ videoUrl (run_state r) = Some (blob_url (minted b))
    /\ objectURLs (run_browser r)
       = (blob_url (minted b), OfBlob videoBlob) :: objectURLs b
    /\ render (run_state r) = VideoPlayer (blob_url (minted b))
    /\ error (run_state r) = None
    /\ isLoading (run_state r) = false.
Proof.
  intros env s b f operation0 pre last rest link served videoBlob
         Hf Hc Hs Hscript Hpre Hlast Hu Hne Hfetch Hok Hblob r.
  assert (Hrun : r = {| run_state :=
                          setIsLoading false
                            (setVideoUrl (Some (blob_url (minted b)))
                               (fst (generate_begin s)));
                        run_browser := snd (createObjectURL (OfBlob videoBlob) b);
                        run_trace :=
                          (before_polling env f
                           ++ waits_and_polls (operation0 :: pre)
                           ++ [Fetch (link ++ "&key=" ++ JS.interpolate (API_KEY env));
                               ReadBlob])%list;
                        run_finished := true |}).
  { subst r. unfold handleGenerateVideo, generate_begin. rewrite Hf.
    rewrite (try_block_polled env f operation0
               (waits_and_polls (operation0 :: pre)) last Hc Hs).
    - rewrite (after_polling_served env last link served videoBlob) by assumption.
      cbn [result trace fst snd generate_settle createObjectURL is_settled].
      rewrite app_nil_r. reflexivity.
    - rewrite Hscript. now apply poll_loop_script. }
  rewrite Hrun. cbn [run_state run_browser run_trace run_finished].
  assert (Hpolled : polled (before_polling env f
                            ++ waits_and_polls (operation0 :: pre)
                            ++ [Fetch (link ++ "&key=" ++ JS.interpolate (API_KEY env));
                                ReadBlob]) = operation0 :: pre).
  { rewrite !polled_app, polled_waits_and_polls. cbn. now rewrite app_nil_r. }
  assert (Hcount : forall t, length (filter is_poll t) = length (polled t)).
  { induction t as [|c t IH]; [reflexivity|]. destruct c; simpl; auto. }
  repeat split.
  - exact Hpolled.
  - rewrite Hcount, Hpolled. reflexivity.
  - unfold generate_begin. rewrite Hf. reflexivity.
Qed.

Lemma two_pending_answers_two_polls :
  length (filter is_poll
            (run_trace (handleGenerateVideo Sample.two_polls
                          (state Sample.selected) (browser Sample.selected))))
  = 2.
Proof.
  refine (proj1 (proj2
    (generate_polls_once_per_pending_answer
       Sample.two_polls (state Sample.selected) (browser Sample.selected)
       Sample.house Sample.running [Sample.running] Sample.finished []
       Sample.link
       {| ok := true; statusText := "OK"; blob := Resolved "mp4" |} "mp4"
       _ _ _ _ _ _ _ _ _ _ _))).
  all: try reflexivity.
  - repeat constructor.
  - discriminate.
Defined.

(** C1 (as stated) fails: the answer of the start call and the answers of
    the polls are not-done, not-done, done with a result URI, the handler
    ends on the video view, and it has polled twice, not three times. *)
Lemma three_polls_claim_fails :
  generateVideos (provider Sample.two_polls)
    (videoRequest (imagePartOf Sample.house)) = Resolved Sample.running
  /\ getVideosOperation (provider Sample.two_polls)
     = [Resolved Sample.running; Resolved Sample.finished]
  /\ done_flags Sample.running [Sample.running; Sample.finished]
     = [false; false; true]
  /\ result_uri Sample.finished = Some Sample.link
  /\ let r := handleGenerateVideo Sample.two_polls
                (state Sample.selected) (browser Sample.selected) in
     render (run_state r) = VideoPlayer "blob:1"
     /\ polled (run_trace r) = [Sample.running; Sample.running]
     /\ length (filter is_poll (run_trace r)) <> 3.
Proof.
  repeat split; try reflexivity.
  vm_compute. discriminate.
Qed.

(** The other reading of the script: three answers that are not done (one
    from the start call, two from polls) make three polls. *)
Example three_pending_answers_three_polls :
  length (filter is_poll
            (run_trace (handleGenerateVideo Sample.three_polls
                          (state Sample.selected) (browser Sample.selected))))
  = 3.
Proof. reflexivity. Qed.

(** C2 (as amended).  For a file whose type does not start with [image/],
    [handleFileChange] sets the error to the fixed message and empties the
    selection: the stored file and the preview are both null afterwards,
    whatever they were; no object URL is made and the other cells keep their
    values.  When nothing was selected before, the selection is therefore
    as it was. *)
Theorem non_image_clears_selection :
  forall f s b,
    JS.startsWith (type f) "image/" = false ->
    let s' := fst (handleFileChange (Some f) s b) in
    error s' = Some invalidFileMessage
    /\ imageFile s' = None
    /\ imagePreview s' = None
    /\ snd (handleFileChange (Some f) s b) = b
    /\ isLoading s' = isLoading s
    /\ loadingMessage s' = loadingMessage s
    /\ videoUrl s' = videoUrl s
    /\ isKeySelected s' = isKeySelected s
    /\ fileInputRef s' = fileInputRef s
    /\ (imageFile s = None -> imagePreview s = None ->
        imageFile s' = imageFile s /\ imagePreview s' = imagePreview s).
Proof.
  intros f s b H s'. subst s'. unfold handleFileChange. rewrite H.
  cbn. repeat split; intros; congruence.
Qed.

Lemma non_image_clears_selection_sample :
  imageFile (fst (handleFileChange (Some Sample.notes)
                    (state Sample.selected) (browser Sample.selected)))
  = None.
Proof.
  refine (proj1 (proj2
    (non_image_clears_selection Sample.notes
       (state Sample.selected) (browser Sample.selected) _))).
  reflexivity.
Defined.

(** C2 (as stated) fails: with [hus.png] selected, choosing a text file
    removes the stored file and its preview. *)
Lemma prior_selection_not_kept :
  JS.startsWith (type Sample.notes) "image/" = false
  /\ imageFile (state Sample.selected) = Some Sample.house
  /\ imagePreview (state Sample.selected) = Some "blob:0"
  /\ let s' := fst (handleFileChange (Some Sample.notes)
                      (state Sample.selected) (browser Sample.selected)) in
     imageFile s' <> imageFile (state Sample.selected)
     /\ imagePreview s' <> imagePreview (state Sample.selected).
Proof.
  repeat split; try reflexivity; vm_compute; discriminate.
Qed.

(** C3 (as amended).  From every state, [resetState] leaves no file, no
    preview, no error, no video URL and the loading flag down, so the empty
    upload form is on screen; it does not write the loading message, which
    keeps the value it had. *)
Theorem resetState_clears_all_but_message :
  forall s,
    let s' := resetState s in
    imageFile s' = None
    /\ imagePreview s' = None
    /\ isLoading s' = false
    /\ error s' = None
    /\ videoUrl s' = None
    /\ render s' = UploadForm None None
    /\ loadingMessage s' = loadingMessage s.
Proof. intros s. cbn. repeat split. Qed.

(** C3 (as stated) fails: select an image, start a generation, let the
    interval fire once, let the attempt succeed (video on screen), then
    reset.  The loading message is still the second entry. *)
Lemma reset_keeps_message_cursor :
  let c := play [FileChange (Some Sample.house);
                 ClickGenerate Sample.three_polls;
                 Tick;
                 Settle 0] initial_config in
  render (state c) = VideoPlayer "blob:1"
  /\ loadingMessage (state c) = loadingMessages_at 1
  /\ loadingMessage (resetState (state c)) = loadingMessages_at 1
  /\ loadingMessage (resetState (state c)) <> loadingMessage initial_state.
Proof.
  repeat split; try reflexivity. vm_compute. discriminate.
Qed.

(** ** What the handler does with each way the [try] block can end *)

Lemma handleGenerateVideo_with_image : forall env s b f,
  imageFile s = Some f ->
  handleGenerateVideo env s b
  = let body := try_block env f in
    let '(s2, b2, t2) := generate_settle (result body) (fst (generate_begin s)) b in
    {| run_state := s2; run_browser := b2;
       run_trace := (trace body ++ t2)%list;
       run_finished := is_settled (result body) |}.
Proof.
  intros env s b f H. unfold handleGenerateVideo, generate_begin.
  rewrite H. reflexivity.
Qed.

Lemma errorMessage_rewritten : forall e m,
  JS.message e = Some m -> contains m entityNotFound ->
  errorMessage e = invalidKeyMessage.
Proof.
  intros e m Hm Hc. unfold errorMessage. rewrite Hm.
  assert (Hne : JS.or_else (Some m) unknownErrorMessage = m).
  { destruct m as [|a m]; [|reflexivity].
    destruct Hc as [pre [post H]]. destruct pre; discriminate. }
  rewrite Hne. apply includes_contains in Hc. now rewrite Hc.
Qed.

Lemma errorMessage_verbatim : forall e m,
  JS.message e = Some m -> m <> "" -> ~ contains m entityNotFound ->
  errorMessage e = m.
Proof.
  intros e m Hm Hne Hc. unfold errorMessage. rewrite Hm.
  destruct m as [|a m]; [congruence|]. cbn [JS.or_else JS.truthy].
  apply includes_false_contains in Hc. now rewrite Hc.
Qed.

Lemma errorMessage_default : forall e,
  JS.message e = None \/ JS.message e = Some "" ->
  errorMessage e = unknownErrorMessage.
Proof. intros e [H|H]; unfold errorMessage; rewrite H; reflexivity. Qed.

(** C4.  When the [try] block of an attempt throws [e], the handler finishes
    and the error it shows is [errorMessage e]: the credential guidance when
    the message of [e] contains "Requested entity was not found.", the
    message itself when it is non-empty and does not contain it, and the
    generic message when [e] has no message or an empty one. *)
Theorem surfaced_error_message :
  forall env s b f e,
    imageFile s = Some f ->
    result (try_block env f) = Throw e ->
    let r := handleGenerateVideo env s b in
    run_finished r = true
    /\ error (run_state r) = Some (errorMessage e)
    /\ (forall m, JS.message e = Some m -> contains m entityNotFound ->
                  errorMessage e = invalidKeyMessage)
    /\ (forall m, JS.message e = Some m -> m <> "" ->
                  ~ contains m entityNotFound -> errorMessage e = m)
    /\ (JS.message e = None \/ JS.message e = Some "" ->
        errorMessage e = unknownErrorMessage).
Proof.
  intros env s b f e Hf Hthrow r. subst r.
  rewrite handleGenerateVideo_with_image with (f := f) by assumption.
  cbv zeta. rewrite Hthrow. cbn.
  repeat split.
  - apply errorMessage_rewritten.
  - apply errorMessage_verbatim.
  - apply errorMessage_default.
Qed.

Lemma surfaced_error_message_bad_key :
  error (run_state (handleGenerateVideo Sample.bad_key
                      (state Sample.selected) (browser Sample.selected)))
  = Some invalidKeyMessage.
Proof.
  pose proof (surfaced_error_message Sample.bad_key
                (state Sample.selected) (browser Sample.selected) Sample.house
                (JS.new_Error "404: Requested entity was not found. (models/veo)")
                eq_refl eq_refl) as H.
  cbv zeta in H. destruct H as (_ & Herr & Hrewrite & _).
  rewrite Herr. apply (f_equal Some).
  apply (Hrewrite "404: Requested entity was not found. (models/veo)" eq_refl).
  exists "404: ", " (models/veo)". reflexivity.
Defined.

(** C5.  When the polling loop ends with a handle (which is then done) whose
    result URI is absent or empty, the handler finishes with the fixed
    no-video message as error, no video URL, the loading flag down and the
    upload form with that message on screen, never the video view; it
    fetches nothing and makes no object URL. *)
Theorem completed_without_uri_fails :
  forall env s b f operation0 t last,
    imageFile s = Some f ->
    construct (provider env) (API_KEY env) = None ->
    generateVideos (provider env) (videoRequest (imagePartOf f)) = Resolved operation0 ->
    poll_loop operation0 (getVideosOperation (provider env)) = (t, Ok last) ->
    JS.truthy (result_uri last) = false ->
    let r := handleGenerateVideo env s b in
    is_done last = true
    /\ run_finished r = true
    /\ error (run_state r) = Some noVideoMessage
    /\ videoUrl (run_state r) = None
    /\ isLoading (run_state r) = false
    /\ render (run_state r)
       = UploadForm (Some noVideoMessage)
                    (if JS.truthy (imagePreview s) then imagePreview s else None)
    /\ (forall u, render (run_state r) <> VideoPlayer u)
    /\ run_browser r = b
    /\ (forall u, ~ In (Fetch u) (run_trace r)).
Proof.
  intros env s b f operation0 t last Hf Hc Hs Hp Hu r. subst r.
  rewrite handleGenerateVideo_with_image with (f := f) by assumption.
  rewrite (try_block_polled env f operation0 t last Hc Hs Hp).
  rewrite after_polling_no_uri by assumption.
  unfold generate_begin. rewrite Hf.
  cbn [trace result fst snd generate_settle is_settled
       run_state run_browser run_trace run_finished].
  rewrite errorMessage_noVideo.
  assert (Hrender :
    render (setIsLoading false
              (setError (Some noVideoMessage)
                 (setLoadingMessage (loadingMessages_at 0)
                    (setError None (setVideoUrl None (setIsLoading true s))))))
    = UploadForm (Some noVideoMessage)
                 (if JS.truthy (imagePreview s) then imagePreview s else None))
    by reflexivity.
  repeat split; try reflexivity.
  - eapply poll_loop_ok_done; eassumption.
  - rewrite Hrender. discriminate.
  - intros u Hin.
    pose proof (poll_loop_trace (getVideosOperation (provider env)) operation0) as Ht.
    rewrite Hp in Ht. cbn [trace fst] in Ht.
    rewrite Forall_forall in Ht.
    rewrite !in_app_iff in Hin.
    destruct Hin as [[Hin|[Hin|Hin]]|Hin].
    + unfold before_polling in Hin. cbn in Hin.
      destruct Hin as [Hin|[Hin|[Hin|[]]]]; discriminate.
    + apply Ht in Hin. exact Hin.
    + destruct Hin.
    + cbn in Hin. destruct Hin as [Hin|[]]. discriminate.
Qed.

Lemma completed_without_uri_fails_sample :
  error (run_state (handleGenerateVideo Sample.no_video
                      (state Sample.selected) (browser Sample.selected)))
  = Some noVideoMessage.
Proof.
  refine (proj1 (proj2 (proj2
    (completed_without_uri_fails Sample.no_video
       (state Sample.selected) (browser Sample.selected) Sample.house
       Sample.running
       [SetTimeout pollInterval; GetVideosOperation Sample.running]
       Sample.empty_handed _ _ _ _ _)))).
  all: reflexivity.
Defined.

(** C6.  Without a stored file the handler only sets the error to the fixed
    upload-first message: it makes no call at all (so none to the network),
    no object URL, and every other cell keeps its value. *)
Theorem generate_without_image :
  forall env s b,
    imageFile s = None ->
    let r := handleGenerateVideo env s b in
    error (run_state r) = Some noImageMessage
    /\ run_trace r = []
    /\ filter is_network_call (run_trace r) = []
    /\ run_browser r = b
    /\ run_finished r = true
    /\ run_state r = setError (Some noImageMessage) s
    /\ imageFile (run_state r) = imageFile s
    /\ imagePreview (run_state r) = imagePreview s
    /\ isLoading (run_state r) = isLoading s
    /\ loadingMessage (run_state r) = loadingMessage s
    /\ videoUrl (run_state r) = videoUrl s
    /\ isKeySelected (run_state r) = isKeySelected s
    /\ fileInputRef (run_state r) = fileInputRef s.
Proof.
  intros env s b H r. subst r.
  unfold handleGenerateVideo, generate_begin. rewrite H.
  cbn. rewrite H. repeat split.
Qed.

Lemma generate_without_image_initially :
  run_trace (handleGenerateVideo Sample.three_polls initial_state fresh_browser) = [].
Proof.
  refine (proj1 (proj2
    (generate_without_image Sample.three_polls initial_state fresh_browser _))).
  reflexivity.
Defined.

(** C7 (as amended).  Selecting an image file and then resetting leaves the
    selection (file, preview, error) as in the initial state, and the whole
    state as the initial state when that is where it began; a further reset
    changes nothing.  The object URL made for the preview is not revoked:
    it is still in the browser's store after the reset. *)
Theorem select_then_reset :
  forall f c,
    JS.startsWith (type f) "image/" = true ->
    let c' := play [FileChange (Some f); ClickReset] c in
    selection (state c') = selection initial_state
    /\ (state c = initial_state -> state c' = initial_state)
    /\ react ClickReset c' = c'
    /\ (forall c0, react ClickReset (react ClickReset c0) = react ClickReset c0)
    /\ imagePreview (state (react (FileChange (Some f)) c))
       = Some (blob_url (minted (browser c)))
    /\ objectURLs (browser c')
       = (blob_url (minted (browser c)), OfFile f) :: objectURLs (browser c).
Proof.
  intros f c H c'. subst c'.
  unfold play. cbn [fold_left]. unfold react at 2. unfold react at 3.
  unfold handleFileChange. rewrite H.
  cbn [createObjectURL state browser inflight].
  assert (Hidem : forall c0,
            react ClickReset (react ClickReset c0) = react ClickReset c0).
  { intros c0. unfold react. cbn [state browser inflight].
    now rewrite resetState_idempotent. }
  repeat split.
  - intros Hinit. cbn [react state]. rewrite Hinit. reflexivity.
  - apply Hidem.
  - apply Hidem.
  - unfold react, handleFileChange. rewrite H. reflexivity.
  - unfold react, handleFileChange. rewrite H. reflexivity.
Qed.

Lemma select_then_reset_sample :
  state (play [FileChange (Some Sample.house); ClickReset] initial_config)
  = initial_state.
Proof.
  refine (proj1 (proj2
    (select_then_reset Sample.house initial_config _)) _); reflexivity.
Defined.

(** C7 (as stated) fails: after selecting [hus.png] and resetting, the state
    is the initial one but the store still holds the preview's object URL,
    which the freshly started page does not. *)
Lemma preview_url_not_released :
  let c' := play [FileChange (Some Sample.house); ClickReset] initial_config in
  state c' = initial_state
  /\ objectURLs (browser c') = [("blob:0", OfFile Sample.house)]
  /\ objectURLs (browser c') <> objectURLs (browser initial_config)
  /\ c' <> initial_config.
Proof.
  repeat split; try reflexivity; vm_compute; discriminate.
Qed.

(** C8.  Each entry of the list is followed by the next one and the last by
    the first; from the first entry, [k] ticks give entry [k mod N]; so [N]
    ticks give the first entry again, and [N] ticks map every entry, and
    every loading state showing the first entry, to itself. *)
Theorem loading_message_cycle :
  map nextLoadingMessage loadingMessages
  = (tl loadingMessages ++ [loadingMessages_at 0])%list
  /\ (forall k,
        Nat.iter k nextLoadingMessage (loadingMessages_at 0)
        = loadingMessages_at (Z.of_nat k mod Z.of_nat (length loadingMessages)))
  /\ Nat.iter (length loadingMessages) nextLoadingMessage (loadingMessages_at 0)
     = loadingMessages_at 0
  /\ Forall (fun m => Nat.iter (length loadingMessages) nextLoadingMessage m = m)
            loadingMessages
  /\ (forall s, loadingMessage (tick (setIsLoading true s))
                = nextLoadingMessage (loadingMessage s))
  /\ (forall s,
        let s0 := setIsLoading true (setLoadingMessage (loadingMessages_at 0) s) in
        Nat.iter (length loadingMessages) tick s0 = s0).
Proof.
  split; [reflexivity|].
  split; [exact iterated_tick_message|].
  split; [reflexivity|].
  split; [repeat constructor|].
  split; reflexivity.
Qed.

(** ** The selection invariant *)

Lemma paired_handleFileChange : forall file s b,
  paired s -> paired (fst (handleFileChange file s b)).
Proof.
  intros [f|] s b Hs; [|exact Hs].
  unfold handleFileChange, paired.
  destruct (JS.startsWith (type f) "image/"); cbn; split; congruence.
Qed.

Lemma paired_generate_begin : forall s, paired s -> paired (fst (generate_begin s)).
Proof.
  intros s. unfold generate_begin, paired.
  destruct (imageFile s) eqn:E; cbn; rewrite ?E; trivial.
Qed.

Lemma paired_generate_settle : forall r s b,
  paired s -> paired (fst (fst (generate_settle r s b))).
Proof. intros [videoBlob|e|] s b Hs; exact Hs. Qed.

Lemma paired_tick : forall s, paired s -> paired (tick s).
Proof. intros s Hs. unfold tick. destruct (isLoading s); exact Hs. Qed.

Lemma paired_resetState : forall s, paired (resetState s).
Proof. intros s. unfold paired. cbn. split; congruence. Qed.

Lemma paired_react : forall ev c, paired (state c) -> paired (state (react ev c)).
Proof.
  intros ev c Hc. destruct ev as [file|env|n| |]; unfold react.
  - pose proof (paired_handleFileChange file (state c) (browser c) Hc) as H.
    destruct (handleFileChange file (state c) (browser c)). exact H.
  - pose proof (paired_generate_begin (state c) Hc) as H.
    destruct (generate_begin (state c)) as [s [f|]]; exact H.
  - destruct (nth_error (inflight c) n) as [r|]; [|exact Hc].
    destruct (is_settled r); [|exact Hc].
    pose proof (paired_generate_settle r (state c) (browser c) Hc) as H.
    destruct (generate_settle r (state c) (browser c)) as [[s b] t]. exact H.
  - apply paired_tick, Hc.
  - apply paired_resetState.
Qed.

Lemma paired_play : forall evs c, paired (state c) -> paired (state (play evs c)).
Proof.
  induction evs as [|ev evs IH]; intros c Hc; [exact Hc|].
  apply IH, paired_react, Hc.
Qed.

(** C9.  In every configuration the component can reach from its initial
    state by file selections (of an image, of another file, or cancelled),
    generation clicks, attempts ending, interval ticks and resets, the stored
    file is non-null exactly when the stored preview is. *)
Theorem selection_and_preview_paired :
  forall c, reachable c -> imageFile (state c) <> None <-> imagePreview (state c) <> None.
Proof.
  intros c [evs <-]. apply paired_play.
  unfold paired. cbn. split; congruence.
Qed.

Lemma selection_and_preview_paired_sample :
  imageFile (state (play [FileChange (Some Sample.house);
                          ClickGenerate Sample.no_video;
                          Settle 0;
                          FileChange (Some Sample.notes)] initial_config)) <> None
  <-> imagePreview (state (play [FileChange (Some Sample.house);
                                 ClickGenerate Sample.no_video;
                                 Settle 0;
                                 FileChange (Some Sample.notes)] initial_config)) <> None.
Proof.
  apply selection_and_preview_paired.
  exists [FileChange (Some Sample.house); ClickGenerate Sample.no_video;
          Settle 0; FileChange (Some Sample.notes)].
  reflexivity.
Defined.

(** ** Every way an attempt can end *)

Lemma poll_loop_rejected : forall pre operation0 e rest,
  Forall (fun o => is_done o = false) (operation0 :: pre) ->
  poll_loop operation0 (map Resolved pre ++ Rejected e :: rest)
  = (waits_and_polls (operation0 :: pre), Throw e).
Proof.
  induction pre as [|o pre IH]; intros operation0 e rest Hpre;
    inversion Hpre as [|? ? H0 Hrest]; subst.
  - cbn [map app poll_loop]. rewrite H0. reflexivity.
  - cbn [map app]. rewrite poll_loop_resolved by assumption.
    rewrite (IH o e rest Hrest). reflexivity.
Qed.

Lemma try_block_start_rejected : forall env f e,
  construct (provider env) (API_KEY env) = None ->
  generateVideos (provider env) (videoRequest (imagePartOf f)) = Rejected e ->
  try_block env f = (before_polling env f, Throw e).
Proof.
  intros env f e Hc Hs. rewrite try_block_unfold by assumption.
  rewrite Hs. reflexivity.
Qed.

Lemma try_block_poll_rejected : forall env f operation0 pre e rest,
  construct (provider env) (API_KEY env) = None ->
  generateVideos (provider env) (videoRequest (imagePartOf f)) = Resolved operation0 ->
  getVideosOperation (provider env) = (map Resolved pre ++ Rejected e :: rest)%list ->
  Forall (fun o => is_done o = false) (operation0 :: pre) ->
  try_block env f
  = ((before_polling env f ++ waits_and_polls (operation0 :: pre))%list, Throw e).
Proof.
  intros env f operation0 pre e rest Hc Hs Hscript Hpre.
  rewrite try_block_unfold by assumption. rewrite Hs, Hscript.
  cbn [bind]. rewrite poll_loop_rejected by assumption. reflexivity.
Qed.

Lemma after_polling_refused : forall env operation link served,
  result_uri operation = Some link -> link <> "" ->
  fetch (provider env) (link ++ "&key=" ++ JS.interpolate (API_KEY env))
    = Resolved served ->
  ok served = false ->
  after_polling env operation
  = ([Fetch (link ++ "&key=" ++ JS.interpolate (API_KEY env))],
     Throw (JS.new_Error ("Failed to download video: " ++ statusText served))).
Proof.
  intros env operation link served Hu Hne Hf Hok.
  unfold after_polling. rewrite Hu.
  destruct link as [|a link]; [congruence|].
  cbn [JS.truthy JS.interpolate]. rewrite Hf.
  unfold bind, await, throw. rewrite Hok. reflexivity.
Qed.

Lemma settle_lowers_flag : forall r s b,
  is_settled r = true -> isLoading (fst (fst (generate_settle r s b))) = false.
Proof. intros [videoBlob|e|] s b H; [reflexivity|reflexivity|discriminate]. Qed.

(** The four endings on the sample providers: a video, a finished operation
    without a video, a refused download, a rejected provider call. *)
Example ending_success :
  result (try_block Sample.three_polls Sample.house) = Ok "mp4".
Proof. reflexivity. Qed.

Example ending_no_video :
  result (try_block Sample.no_video Sample.house)
  = Throw (JS.new_Error noVideoMessage).
Proof. reflexivity. Qed.

Example ending_refused_download :
  result (try_block Sample.bad_download Sample.house)
  = Throw (JS.new_Error "Failed to download video: Forbidden").
Proof. reflexivity. Qed.

Example ending_rejected_call :
  result (try_block Sample.bad_key Sample.house)
  = Throw (JS.new_Error "404: Requested entity was not found. (models/veo)").
Proof. reflexivity. Qed.

(** C10.  With a selected image, the handler has finished exactly when its
    [try] block ended with a value or a throw, whichever call produced it
    (a fetched video, the no-video error, a refused download, a rejected or
    throwing provider call); whenever it has finished, the loading flag is
    down.  It has not finished only while an [await] has not resumed. *)
Theorem loading_flag_down_after_attempt :
  forall env s b f,
    imageFile s = Some f ->
    let r := handleGenerateVideo env s b in
    (run_finished r = true -> isLoading (run_state r) = false)
    /\ (forall videoBlob, result (try_block env f) = Ok videoBlob ->
          run_finished r = true /\ isLoading (run_state r) = false)
    /\ (forall e, result (try_block env f) = Throw e ->
          run_finished r = true /\ isLoading (run_state r) = false)
    /\ (run_finished r = false -> result (try_block env f) = Pending).
Proof.
  intros env s b f Hf r. subst r.
  rewrite handleGenerateVideo_with_image with (f := f) by assumption.
  cbv zeta.
  pose proof (settle_lowers_flag (result (try_block env f))
                (fst (generate_begin s)) b) as Hflag.
  destruct (generate_settle (result (try_block env f)) (fst (generate_begin s)) b)
    as [[s2 b2] t2].
  cbn [run_state run_finished fst] in *.
  repeat split.
  - exact Hflag.
  - now rewrite H.
  - apply Hflag. now rewrite H.
  - now rewrite H.
  - apply Hflag. now rewrite H.
  - destruct (result (try_block env f)); [discriminate|discriminate|reflexivity].
Qed.

Lemma loading_flag_down_after_refused_download :
  isLoading (run_state (handleGenerateVideo Sample.bad_download
                          (state Sample.selected) (browser Sample.selected)))
  = false.
Proof.
  refine (proj1
    (loading_flag_down_after_attempt Sample.bad_download
       (state Sample.selected) (browser Sample.selected) Sample.house _) _);
    reflexivity.
Defined.

(** * Further properties of the component *)

(** ** File selection *)

(** X1.  Choosing an image file makes it the selection whatever was selected
    before, clears the error, and sets the preview to a URL registered for
    that file at that moment; every URL registered earlier, the previous
    preview's included, stays registered; the loading flag, the message and
    the video URL are not touched.  A cancelled dialog (no file) changes
    nothing. *)
Theorem image_replaces_selection :
  forall f s b,
    JS.startsWith (type f) "image/" = true ->
    let s' := fst (handleFileChange (Some f) s b) in
    let b' := snd (handleFileChange (Some f) s b) in
    imageFile s' = Some f
    /\ imagePreview s' = Some (blob_url (minted b))
    /\ error s' = None
    /\ objectURLs b' = (blob_url (minted b), OfFile f) :: objectURLs b
    /\ (forall entry, In entry (objectURLs b) -> In entry (objectURLs b'))
    /\ isLoading s' = isLoading s
    /\ loadingMessage s' = loadingMessage s
    /\ videoUrl s' = videoUrl s
    /\ handleFileChange None s b = (s, b).
Proof.
  intros f s b H s' b'. subst s' b'.
  unfold handleFileChange. rewrite H. cbn.
  repeat split. intros entry Hin. now right.
Qed.

Lemma image_replaces_selection_sample :
  imageFile (fst (handleFileChange
                    (Some {| file_name := "gaard.jpg"; type := "image/jpeg";
                             base64 := "Z2FhcmQ=" |})
                    (state Sample.selected) (browser Sample.selected)))
  = Some {| file_name := "gaard.jpg"; type := "image/jpeg"; base64 := "Z2FhcmQ=" |}.
Proof.
  refine (proj1
    (image_replaces_selection
       {| file_name := "gaard.jpg"; type := "image/jpeg"; base64 := "Z2FhcmQ=" |}
       (state Sample.selected) (browser Sample.selected) _)).
  reflexivity.
Defined.

(** X2.  A chosen file becomes the selection exactly when its type is
    ["image/"] followed by anything (possibly nothing), compared character
    by character; in every other case the selection ends up empty and the
    invalid-file message is the error. *)
Theorem selection_accepts_image_prefix :
  forall f s b,
    ((exists rest, type f = "image/" ++ rest)
     <-> imageFile (fst (handleFileChange (Some f) s b)) = Some f)
    /\ ((~ exists rest, type f = "image/" ++ rest)
        <-> (imageFile (fst (handleFileChange (Some f) s b)) = None
             /\ error (fst (handleFileChange (Some f) s b))
                = Some invalidFileMessage)).
Proof.
  intros f s b.
  pose proof (prefix_append "image/" (type f)) as Hp.
  unfold handleFileChange, JS.startsWith.
  destruct (String.prefix "image/" (type f)) eqn:E; cbn.
  - split; split.
    + reflexivity.
    + intros _. now apply Hp.
    + intros Hn. exfalso. apply Hn. now apply Hp.
    + intros [Hnone _]. discriminate.
  - assert (Hn : ~ exists rest, type f = "image/" ++ rest).
    { intros Hex. apply Hp in Hex. discriminate. }
    split; split.
    + intros Hex. contradiction.
    + discriminate.
    + intros _. split; reflexivity.
    + intros _. exact Hn.
Qed.

(** ** The payload cut out of the data URL *)

Lemma js_split_lacks : forall s c, lacks c s = true -> js_split s c = [s].
Proof.
  induction s as [|d s IH]; intros c H; [reflexivity|].
  cbn in *. apply andb_true_iff in H as [Hd Hs].
  apply negb_true_iff in Hd. rewrite Hd, (IH c Hs). reflexivity.
Qed.

Lemma js_split_app : forall s1 s2 c,
  lacks c s1 = true ->
  js_split (s1 ++ String c s2) c = s1 :: js_split s2 c.
Proof.
  induction s1 as [|d s1 IH]; intros s2 c H.
  - cbn. now rewrite Ascii.eqb_refl.
  - cbn in *. apply andb_true_iff in H as [Hd Hs].
    apply negb_true_iff in Hd. rewrite Hd, (IH s2 c Hs). reflexivity.
Qed.

Lemma lacks_app : forall c s1 s2,
  lacks c (s1 ++ s2) = lacks c s1 && lacks c s2.
Proof.
  induction s1 as [|d s1 IH]; intros s2; [reflexivity|].
  cbn. rewrite IH. now rewrite andb_assoc.
Qed.

(** X3.  For a file whose type and base64 payload contain no comma, cutting
    the reader's data URL at the commas and taking the second piece gives
    back exactly the payload, which is what the request carries as image
    bytes; the data URL then has exactly two pieces. *)
Theorem data_url_payload :
  forall f,
    lacks comma (type f) = true ->
    lacks comma (base64 f) = true ->
    base64EncodedData (readAsDataURL_result f) = Some (base64 f)
    /\ js_split (readAsDataURL_result f) comma
       = ["data:" ++ type f ++ ";base64"; base64 f]
    /\ imageBytes (image (videoRequest (imagePartOf f))) = base64 f
    /\ image_mimeType (image (videoRequest (imagePartOf f))) = type f.
Proof.
  intros f Ht Hb.
  assert (Hsplit : js_split (readAsDataURL_result f) comma
                   = ["data:" ++ type f ++ ";base64"; base64 f]).
  { unfold readAsDataURL_result.
    change ("data:" ++ type f ++ ";base64," ++ base64 f)
      with ("data:" ++ (type f ++ (";base64" ++ String comma (base64 f)))).
    assert (Hassoc : forall a b c d : string,
              a ++ (b ++ (c ++ d)) = (a ++ b ++ c) ++ d).
    { intros a b c d. induction a as [|x a IHa]; cbn.
      - induction b as [|y b IHb]; cbn; [reflexivity|now rewrite IHb].
      - now rewrite IHa. }
    rewrite Hassoc, js_split_app.
    - now rewrite js_split_lacks.
    - rewrite !lacks_app, Ht. reflexivity. }
  repeat split; try reflexivity.
  - unfold base64EncodedData. rewrite Hsplit. reflexivity.
  - exact Hsplit.
Qed.

Lemma data_url_payload_sample :
  base64EncodedData (readAsDataURL_result Sample.house) = Some "aHVz".
Proof.
  refine (proj1 (data_url_payload Sample.house _ _)); reflexivity.
Defined.

(** ** The shape of every trace *)

Lemma fetched_app : forall t1 t2, fetched (t1 ++ t2) = (fetched t1 ++ fetched t2)%list.
Proof.
  induction t1 as [|c t1 IH]; intros t2; [reflexivity|].
  destruct c; simpl; rewrite IH; reflexivity.
Qed.

Lemma waits_and_polls_only : forall ops,
  fetched (waits_and_polls ops) = []
  /\ filter is_start (waits_and_polls ops) = []
  /\ filter is_wait (waits_and_polls ops) = map (fun _ => SetTimeout pollInterval) ops
  /\ filter is_network_call (waits_and_polls ops) = map GetVideosOperation ops.
Proof.
  induction ops as [|o ops (IH1 & IH2 & IH3 & IH4)]; [repeat split|].
  unfold waits_and_polls in *. cbn [flat_map app filter fetched map is_start is_wait
                                    is_network_call].
  rewrite IH1, IH2, IH3, IH4. repeat split.
Qed.

Lemma poll_loop_shape : forall script operation,
  exists ops,
    trace (poll_loop operation script) = waits_and_polls ops
    /\ Forall (fun o => is_done o = false) ops
    /\ ((is_done operation = true /\ ops = [])
        \/ (is_done operation = false
            /\ exists tl rest, ops = operation :: tl
                               /\ script = (map Resolved tl ++ rest)%list)).
Proof.
  induction script as [|a script IH]; intros operation;
    destruct (is_done operation) eqn:E.
  - exists []. rewrite poll_loop_done by assumption. repeat split; auto.
  - exists [operation]. cbn [poll_loop]. rewrite E. cbn.
    repeat split; auto. right. split; [reflexivity|]. now exists [], [].
  - exists []. rewrite poll_loop_done by assumption. repeat split; auto.
  - destruct a as [o|e|].
    + destruct (IH o) as (ops & Ht & Hnd & Hcase).
      exists (operation :: ops).
      rewrite poll_loop_resolved by assumption.
      destruct (poll_loop o script) as [t r]. cbn [trace fst] in *.
      rewrite Ht. repeat split; auto.
      right. split; [reflexivity|].
      destruct Hcase as [[_ ->]|[_ (tl & rest & -> & ->)]].
      * now exists [], (Resolved o :: script).
      * now exists (o :: tl), rest.
    + exists [operation]. cbn [poll_loop]. rewrite E. cbn.
      repeat split; auto. right. split; [reflexivity|].
      now exists [], (Rejected e :: script).
    + exists [operation]. cbn [poll_loop]. rewrite E. cbn.
      repeat split; auto. right. split; [reflexivity|].
      now exists [], (Never :: script).
Qed.

Lemma after_polling_shape : forall env operation,
  (JS.truthy (result_uri operation) = false
   /\ after_polling env operation = ([], Throw (JS.new_Error noVideoMessage)))
  \/ (exists link,
        result_uri operation = Some link /\ link <> ""
        /\ (trace (after_polling env operation)
              = [Fetch (link ++ "&key=" ++ JS.interpolate (API_KEY env))]
            \/ trace (after_polling env operation)
               = [Fetch (link ++ "&key=" ++ JS.interpolate (API_KEY env)); ReadBlob])).
Proof.
  intros env operation.
  destruct (JS.truthy (result_uri operation)) eqn:E.
  - right. unfold after_polling. rewrite E.
    destruct (result_uri operation) as [[|a link]|]; try discriminate.
    exists (String a link). split; [reflexivity|]. split; [discriminate|].
    cbn [JS.interpolate]. unfold bind, await.
    destruct (fetch (provider env) _) as [served|e|]; cbn; auto.
    destruct (ok served); cbn; auto.
  - left. split; [reflexivity|]. now apply after_polling_no_uri.
Qed.

Lemma try_block_trace : forall env f,
  construct (provider env) (API_KEY env) = None ->
  trace (try_block env f)
  = (before_polling env f
     ++ match generateVideos (provider env) (videoRequest (imagePartOf f)) with
        | Resolved operation0 =>
            trace (poll_loop operation0 (getVideosOperation (provider env)))
            ++ match result (poll_loop operation0 (getVideosOperation (provider env))) with
               | Ok last => trace (after_polling env last)
               | _ => []
               end
        | _ => []
        end)%list.
Proof.
  intros env f H. rewrite try_block_unfold by assumption.
  destruct (generateVideos _ _) as [operation0|e|]; cbn [bind trace fst];
    try (now rewrite app_nil_r).
  destruct (poll_loop operation0 _) as [t [last|e|]]; cbn [bind trace result fst snd].
  - destruct (after_polling env last) as [t' r]. reflexivity.
  - now rewrite app_nil_r.
  - now rewrite app_nil_r.
Qed.

Lemma try_block_result : forall env f,
  construct (provider env) (API_KEY env) = None ->
  result (try_block env f)
  = match generateVideos (provider env) (videoRequest (imagePartOf f)) with
    | Resolved operation0 =>
        match result (poll_loop operation0 (getVideosOperation (provider env))) with
        | Ok last => result (after_polling env last)
        | Throw e => Throw e
        | Pending => Pending
        end
    | Rejected e => Throw e
    | Never => Pending
    end.
Proof.
  intros env f H. rewrite try_block_unfold by assumption.
  destruct (generateVideos _ _) as [operation0|e|]; cbn [bind result snd];
    try reflexivity.
  destruct (poll_loop operation0 _) as [t [last|e|]]; cbn [bind result snd];
    try reflexivity.
  destruct (after_polling env last) as [t' r]. reflexivity.
Qed.

Lemma run_trace_with_image : forall env s b f,
  imageFile s = Some f ->
  run_trace (handleGenerateVideo env s b)
  = (trace (try_block env f)
     ++ match result (try_block env f) with
        | Throw e => [ConsoleError e]
        | _ => []
        end)%list.
Proof.
  intros env s b f H.
  rewrite handleGenerateVideo_with_image with (f := f) by assumption.
  cbv zeta.
  destruct (result (try_block env f)) as [videoBlob|e|]; reflexivity.
Qed.

Lemma run_state_with_image : forall env s b f,
  imageFile s = Some f ->
  run_state (handleGenerateVideo env s b)
  = fst (fst (generate_settle (result (try_block env f)) (fst (generate_begin s)) b))
  /\ run_browser (handleGenerateVideo env s b)
     = snd (fst (generate_settle (result (try_block env f)) (fst (generate_begin s)) b))
  /\ run_finished (handleGenerateVideo env s b) = is_settled (result (try_block env f)).
Proof.
  intros env s b f H.
  rewrite handleGenerateVideo_with_image with (f := f) by assumption.
  cbv zeta.
  destruct (generate_settle _ _ _) as [[s2 b2] t2]. repeat split.
Qed.

(** The trace of any invocation: some calls, then waits and polls in pairs,
    then some calls; waits and polls occur only in the middle, a fetch only
    at the end and with the key appended. *)
Lemma run_trace_shape : forall env s b,
  exists before ops after,
    run_trace (handleGenerateVideo env s b)
    = (before ++ waits_and_polls ops ++ after)%list
    /\ filter is_wait before = [] /\ polled before = [] /\ fetched before = []
    /\ Forall (fun o => is_done o = false) ops
    /\ filter is_wait after = [] /\ polled after = []
    /\ (fetched after = []
        \/ exists link,
             link <> ""
             /\ fetched after = [link ++ "&key=" ++ JS.interpolate (API_KEY env)]).
Proof.
  intros env s b.
  destruct (imageFile s) as [f|] eqn:Hf.
  2:{ exists [], [], []. unfold handleGenerateVideo, generate_begin. rewrite Hf.
      cbn. repeat split; auto. }
  rewrite (run_trace_with_image env s b f Hf).
  destruct (construct (provider env) (API_KEY env)) as [e|] eqn:Hc.
  { rewrite (try_block_construct_throws env f e Hc). cbn [trace result fst snd].
    exists [NewGoogleGenAI (API_KEY env); ConsoleError e], [], [].
    cbn. repeat split; auto. }
  rewrite try_block_trace, try_block_result by assumption.
  destruct (generateVideos _ _) as [operation0|e|].
  - destruct (poll_loop_shape (getVideosOperation (provider env)) operation0)
      as (ops & Ht & Hnd & _).
    rewrite Ht.
    destruct (result (poll_loop operation0 _)) as [last|e|].
    + destruct (after_polling_shape env last)
        as [[_ Hafter]|(link & _ & Hne & Hafter)].
      * rewrite Hafter. cbn [trace result fst snd].
        exists (before_polling env f), ops,
               [ConsoleError (JS.new_Error noVideoMessage)].
        rewrite app_nil_r, <- app_assoc. cbn. repeat split; auto.
      * exists (before_polling env f), ops,
               (trace (after_polling env last)
                ++ match result (after_polling env last) with
                   | Throw e => [ConsoleError e]
                   | _ => []
                   end)%list.
        rewrite <- !app_assoc. split; [reflexivity|].
        destruct Hafter as [-> | ->];
          destruct (result (after_polling env last)); cbn; repeat split; auto;
          right; exists link; auto.
    + exists (before_polling env f), ops, [ConsoleError e].
      rewrite app_nil_r, <- app_assoc. cbn. repeat split; auto.
    + exists (before_polling env f), ops, [].
      rewrite !app_nil_r. cbn. repeat split; auto.
  - exists (before_polling env f), [], [ConsoleError e].
    rewrite app_nil_r. cbn. repeat split; auto.
  - exists (before_polling env f), [], [].
    rewrite !app_nil_r. cbn. repeat split; auto.
Qed.

Lemma errorMessage_not_empty : forall e, errorMessage e <> "".
Proof.
  intros e. unfold errorMessage.
  destruct (JS.includes _ entityNotFound); [discriminate|].
  destruct (JS.message e) as [[|a m]|]; discriminate.
Qed.

Lemma polled_after_polling : forall env operation,
  polled (trace (after_polling env operation)) = []
  /\ filter is_start (trace (after_polling env operation)) = [].
Proof.
  intros env operation.
  destruct (after_polling_shape env operation)
    as [[_ ->]|(link & _ & _ & [-> | ->])]; split; reflexivity.
Qed.

Lemma polled_run : forall env s b f operation0,
  imageFile s = Some f ->
  construct (provider env) (API_KEY env) = None ->
  generateVideos (provider env) (videoRequest (imagePartOf f)) = Resolved operation0 ->
  polled (run_trace (handleGenerateVideo env s b))
  = polled (trace (poll_loop operation0 (getVideosOperation (provider env)))).
Proof.
  intros env s b f operation0 Hf Hc Hs.
  rewrite (run_trace_with_image env s b f Hf), try_block_trace by assumption.
  rewrite Hs, !polled_app.
  assert (Hlast : polled
            match result (poll_loop operation0 (getVideosOperation (provider env))) with
            | Ok last => trace (after_polling env last)
            | _ => []
            end = []).
  { destruct (result (poll_loop operation0 _)); try reflexivity.
    apply polled_after_polling. }
  rewrite Hlast, app_nil_r.
  destruct (result (try_block env f)); cbn; now rewrite app_nil_r.
Qed.


Lemma includes_download_prefix : forall st,
  JS.includes ("Failed to download video: " ++ st) entityNotFound
  = JS.includes st entityNotFound.
Proof. intros st. reflexivity. Qed.

(** ** The calls of an attempt *)

(** X4.  Whatever the provider answers, an attempt with a selected image
    whose client was constructed sends exactly one [generateVideos] request;
    it carries the selected file's payload and type, asks for one video,
    720p, 16:9. *)
Theorem one_start_request :
  forall env s b f,
    imageFile s = Some f ->
    construct (provider env) (API_KEY env) = None ->
    let r := handleGenerateVideo env s b in
    let request := videoRequest (imagePartOf f) in
    filter is_start (run_trace r) = [GenerateVideos request]
    /\ imageBytes (image request) = base64 f
    /\ image_mimeType (image request) = type f
    /\ numberOfVideos (config request) = 1%Z
    /\ resolution (config request) = "720p"
    /\ aspectRatio (config request) = "16:9".
Proof.
  intros env s b f Hf Hc r request. subst r request.
  split; [|repeat split].
  rewrite (run_trace_with_image env s b f Hf), try_block_trace by assumption.
  rewrite !filter_app.
  assert (Htail : filter is_start
            match result (try_block env f) with
            | Throw e => [ConsoleError e]
            | _ => []
            end = []) by (destruct (result (try_block env f)); reflexivity).
  rewrite Htail, app_nil_r.
  destruct (generateVideos _ _) as [operation0|e|]; try reflexivity.
  destruct (poll_loop_shape (getVideosOperation (provider env)) operation0)
    as (ops & Ht & _).
  rewrite filter_app, Ht.
  destruct (waits_and_polls_only ops) as (_ & Hnone & _). rewrite Hnone.
  destruct (result (poll_loop operation0 _)) as [last|e|]; try reflexivity.
  destruct (polled_after_polling env last) as [_ Hafter]. rewrite Hafter.
  reflexivity.
Qed.

Lemma one_start_request_sample :
  filter is_start
    (run_trace (handleGenerateVideo Sample.no_video
                  (state Sample.selected) (browser Sample.selected)))
  = [GenerateVideos (videoRequest (imagePartOf Sample.house))].
Proof.
  refine (proj1
    (one_start_request Sample.no_video
       (state Sample.selected) (browser Sample.selected) Sample.house _ _));
    reflexivity.
Defined.

(** X5.  When constructing the client throws (as it may for a missing key),
    the handler makes no network call: it logs the error, shows its message
    (rewritten or defaulted as for any error), lowers the loading flag and
    makes no object URL. *)
Theorem constructor_failure_stays_offline :
  forall env s b f e,
    imageFile s = Some f ->
    construct (provider env) (API_KEY env) = Some e ->
    let r := handleGenerateVideo env s b in
    run_trace r = [NewGoogleGenAI (API_KEY env); ConsoleError e]
    /\ filter is_network_call (run_trace r) = []
    /\ error (run_state r) = Some (errorMessage e)
    /\ videoUrl (run_state r) = None
    /\ isLoading (run_state r) = false
    /\ run_finished r = true
    /\ run_browser r = b.
Proof.
  intros env s b f e Hf Hc r. subst r.
  rewrite handleGenerateVideo_with_image with (f := f) by assumption.
  rewrite (try_block_construct_throws env f e Hc).
  unfold generate_begin. rewrite Hf. cbn. repeat split.
Qed.

Lemma constructor_failure_stays_offline_sample :
  error (run_state
           (handleGenerateVideo
              {| API_KEY := None;
                 provider :=
                   {| construct := fun key =>
                        match key with
                        | Some _ => None
                        | None => Some (JS.new_Error "An API Key must be set.")
                        end;
                      generateVideos := fun _ => Never;
                      getVideosOperation := [];
                      fetch := Sample.served |} |}
              (state Sample.selected) (browser Sample.selected)))
  = Some "An API Key must be set.".
Proof.
  refine (proj1 (proj2 (proj2
    (constructor_failure_stays_offline _
       (state Sample.selected) (browser Sample.selected) Sample.house
       (JS.new_Error "An API Key must be set.") _ _))));
    reflexivity.
Defined.

(** X6.  When [generateVideos] rejects, nothing is polled and nothing is
    fetched: the calls are the three made before polling and the log of the
    error, whose message is shown. *)
Theorem rejected_start_ends_attempt :
  forall env s b f e,
    imageFile s = Some f ->
    construct (provider env) (API_KEY env) = None ->
    generateVideos (provider env) (videoRequest (imagePartOf f)) = Rejected e ->
    let r := handleGenerateVideo env s b in
    run_trace r = (before_polling env f ++ [ConsoleError e])%list
    /\ polled (run_trace r) = []
    /\ fetched (run_trace r) = []
    /\ error (run_state r) = Some (errorMessage e)
    /\ videoUrl (run_state r) = None
    /\ isLoading (run_state r) = false
    /\ run_browser r = b.
Proof.
  intros env s b f e Hf Hc Hs r. subst r.
  rewrite handleGenerateVideo_with_image with (f := f) by assumption.
  rewrite (try_block_start_rejected env f e Hc Hs).
  unfold generate_begin. rewrite Hf. cbn. repeat split.
Qed.

Lemma rejected_start_ends_attempt_sample :
  polled (run_trace (handleGenerateVideo Sample.bad_key
                       (state Sample.selected) (browser Sample.selected)))
  = [].
Proof.
  refine (proj1 (proj2
    (rejected_start_ends_attempt Sample.bad_key
       (state Sample.selected) (browser Sample.selected) Sample.house
       (JS.new_Error "404: Requested entity was not found. (models/veo)")
       _ _ _)));
    reflexivity.
Defined.

(** ** Polling *)

(** X7.  In every invocation, on any provider and from any state, waits and
    polls come only as pairs, a 10000 ms wait and then the query, in one
    block of the trace; so there are as many waits as polls, and no handle
    that is polled is done. *)
Theorem polls_come_after_waits :
  forall env s b,
    let r := handleGenerateVideo env s b in
    exists before ops after,
      run_trace r = (before ++ waits_and_polls ops ++ after)%list
      /\ filter is_wait before = [] /\ polled before = []
      /\ filter is_wait after = [] /\ polled after = []
      /\ polled (run_trace r) = ops
      /\ filter is_wait (run_trace r) = map (fun _ => SetTimeout pollInterval) ops
      /\ Forall (fun o => is_done o = false) ops.
Proof.
  intros env s b r. subst r.
  destruct (run_trace_shape env s b)
    as (before & ops & after & Ht & Hw1 & Hp1 & _ & Hnd & Hw2 & Hp2 & _).
  exists before, ops, after.
  destruct (waits_and_polls_only ops) as (_ & _ & Hwaits & _).
  rewrite Ht, !polled_app, !filter_app, Hw1, Hp1, Hw2, Hp2, Hwaits,
          polled_waits_and_polls, !app_nil_r.
  repeat split; auto.
Qed.

(** X8.  Once the start call has answered, a handle that is already done is
    never polled; otherwise the first poll passes the start handle and each
    later poll passes the handle the previous poll answered, in script
    order. *)
Theorem polls_chain_handles :
  forall env s b f operation0,
    imageFile s = Some f ->
    construct (provider env) (API_KEY env) = None ->
    generateVideos (provider env) (videoRequest (imagePartOf f)) = Resolved operation0 ->
    let r := handleGenerateVideo env s b in
    (is_done operation0 = true /\ polled (run_trace r) = [])
    \/ (is_done operation0 = false
        /\ exists tl rest,
             polled (run_trace r) = operation0 :: tl
             /\ getVideosOperation (provider env) = (map Resolved tl ++ rest)%list
             /\ Forall (fun o => is_done o = false) tl).
Proof.
  intros env s b f operation0 Hf Hc Hs r. subst r.
  rewrite (polled_run env s b f operation0 Hf Hc Hs).
  destruct (poll_loop_shape (getVideosOperation (provider env)) operation0)
    as (ops & Ht & Hnd & [[Hd ->]|[Hd (tl & rest & -> & Hscript)]]);
    rewrite Ht, polled_waits_and_polls.
  - left. split; [assumption|reflexivity].
  - right. split; [assumption|]. exists tl, rest.
    inversion Hnd; subst. repeat split; assumption.
Qed.

Lemma polls_chain_handles_sample :
  (is_done Sample.finished = true
   /\ polled (run_trace (handleGenerateVideo Sample.bad_download
                           (state Sample.selected) (browser Sample.selected))) = [])
  \/ (is_done Sample.finished = false
      /\ exists tl rest,
           polled (run_trace (handleGenerateVideo Sample.bad_download
                                (state Sample.selected) (browser Sample.selected)))
           = Sample.finished :: tl
           /\ getVideosOperation (provider Sample.bad_download)
              = (map Resolved tl ++ rest)%list
           /\ Forall (fun o => is_done o = false) tl).
Proof.
  refine (polls_chain_handles Sample.bad_download
            (state Sample.selected) (browser Sample.selected) Sample.house
            Sample.finished _ _ _);
    reflexivity.
Defined.



(** X10.  When a poll rejects, polling stops there: the handles polled are
    the start handle and the not-done answers before the rejection, the rest
    of the script is never asked for, nothing is fetched, and the rejection's
    message is shown with the loading flag down. *)
Theorem rejected_poll_ends_attempt :
  forall env s b f operation0 pre e rest,
    imageFile s = Some f ->
    construct (provider env) (API_KEY env) = None ->
    generateVideos (provider env) (videoRequest (imagePartOf f)) = Resolved operation0 ->
    getVideosOperation (provider env) = (map Resolved pre ++ Rejected e :: rest)%list ->
    Forall (fun o => is_done o = false) (operation0 :: pre) ->
    let r := handleGenerateVideo env s b in
    polled (run_trace r) = operation0 :: pre
    /\ fetched (run_trace r) = []
    /\ error (run_state r) = Some (errorMessage e)
    /\ videoUrl (run_state r) = None
    /\ isLoading (run_state r) = false
    /\ run_finished r = true
    /\ run_browser r = b.
Proof.
  intros env s b f operation0 pre e rest Hf Hc Hs Hscript Hpre r. subst r.
  rewrite handleGenerateVideo_with_image with (f := f) by assumption.
  rewrite (try_block_poll_rejected env f operation0 pre e rest Hc Hs Hscript Hpre).
  unfold generate_begin. rewrite Hf.
  cbn [trace result fst snd generate_settle is_settled
       run_state run_browser run_trace run_finished].
  rewrite !polled_app, !fetched_app, polled_waits_and_polls.
  destruct (waits_and_polls_only (operation0 :: pre)) as (Hfetched & _).
  rewrite Hfetched. cbn. rewrite app_nil_r. repeat split.
Qed.

Lemma rejected_poll_ends_attempt_sample :
  polled (run_trace
            (handleGenerateVideo
               (Sample.scripted (Resolved Sample.running)
                  [Resolved Sample.running;
                   Rejected (JS.new_Error "503");
                   Resolved Sample.finished]
                  Sample.served)
               (state Sample.selected) (browser Sample.selected)))
  = [Sample.running; Sample.running].
Proof.
  refine (proj1
    (rejected_poll_ends_attempt _ (state Sample.selected) (browser Sample.selected)
       Sample.house Sample.running [Sample.running] (JS.new_Error "503")
       [Resolved Sample.finished] _ _ _ _ _));
    try reflexivity.
  repeat constructor.
Defined.

(** ** The download *)

(** X11.  When the download answers with [ok] false, the body is never read
    and no object URL is made; the attempt fails with
    ["Failed to download video: "] followed by the status text, shown as it
    is unless the status text contains the not-found phrase, in which case
    the key guidance is shown instead. *)
Theorem refused_download_fails :
  forall env s b f operation0 t last link served,
    imageFile s = Some f ->
    construct (provider env) (API_KEY env) = None ->
    generateVideos (provider env) (videoRequest (imagePartOf f)) = Resolved operation0 ->
    poll_loop operation0 (getVideosOperation (provider env)) = (t, Ok last) ->
    result_uri last = Some link -> link <> "" ->
    fetch (provider env) (link ++ "&key=" ++ JS.interpolate (API_KEY env))
      = Resolved served ->
    ok served = false ->
    let r := handleGenerateVideo env s b in
    (JS.includes (statusText served) entityNotFound = false ->
     error (run_state r) = Some ("Failed to download video: " ++ statusText served))
    /\ (JS.includes (statusText served) entityNotFound = true ->
        error (run_state r) = Some invalidKeyMessage)
    /\ ~ In ReadBlob (run_trace r)
    /\ fetched (run_trace r) = [link ++ "&key=" ++ JS.interpolate (API_KEY env)]
    /\ videoUrl (run_state r) = None
    /\ isLoading (run_state r) = false
    /\ run_finished r = true
    /\ run_browser r = b.
Proof.
  intros env s b f operation0 t last link served
         Hf Hc Hs Hp Hu Hne Hfetch Hok r. subst r.
  rewrite handleGenerateVideo_with_image with (f := f) by assumption.
  rewrite (try_block_polled env f operation0 t last Hc Hs Hp).
  rewrite (after_polling_refused env last link served Hu Hne Hfetch Hok).
  unfold generate_begin. rewrite Hf.
  cbn [trace result fst snd generate_settle is_settled
       run_state run_browser run_trace run_finished].
  pose proof (poll_loop_trace (getVideosOperation (provider env)) operation0) as Ht.
  rewrite Hp in Ht. cbn [trace fst] in Ht. rewrite Forall_forall in Ht.
  assert (Hmsg : error (setIsLoading false
                   (setError
                      (Some (errorMessage
                               (JS.new_Error
                                  ("Failed to download video: " ++ statusText served))))
                      (setLoadingMessage (loadingMessages_at 0)
                         (setError None (setVideoUrl None (setIsLoading true s))))))
                 = Some (if JS.includes (statusText served) entityNotFound
                         then invalidKeyMessage
                         else "Failed to download video: " ++ statusText served)).
  { cbn [error setIsLoading setError]. unfold errorMessage.
    cbn [JS.message JS.new_Error JS.or_else JS.truthy].
    change (JS.or_else (Some ("Failed to download video: " ++ statusText served))
                       unknownErrorMessage)
      with ("Failed to download video: " ++ statusText served).
    rewrite includes_download_prefix. reflexivity. }
  assert (Hfetched : fetched t = []).
  { destruct (poll_loop_shape (getVideosOperation (provider env)) operation0)
      as (ops & Hshape & _).
    rewrite Hp in Hshape. cbn [trace fst] in Hshape. rewrite Hshape.
    apply waits_and_polls_only. }
  split; [|split; [|split; [|split]]].
  - intros Hno. rewrite Hmsg, Hno. reflexivity.
  - intros Hyes. rewrite Hmsg, Hyes. reflexivity.
  - intros Hin. rewrite !in_app_iff in Hin.
    destruct Hin as [[Hin|[Hin|Hin]]|Hin].
    + cbn in Hin. destruct Hin as [Hin|[Hin|[Hin|[]]]]; discriminate.
    + apply Ht in Hin. exact Hin.
    + cbn in Hin. destruct Hin as [Hin|[]]. discriminate.
    + cbn in Hin. destruct Hin as [Hin|[]]. discriminate.
  - rewrite !fetched_app, Hfetched. reflexivity.
  - repeat split.
Qed.

Lemma refused_download_fails_sample :
  error (run_state (handleGenerateVideo Sample.bad_download
                      (state Sample.selected) (browser Sample.selected)))
  = Some "Failed to download video: Forbidden".
Proof.
  refine (proj1
    (refused_download_fails Sample.bad_download
       (state Sample.selected) (browser Sample.selected) Sample.house
       Sample.finished [] Sample.finished Sample.link
       {| ok := false; statusText := "Forbidden"; blob := Never |}
       _ _ _ _ _ _ _ _) _);
    try reflexivity.
  discriminate.
Defined.


(** ** How an attempt ends *)

(** X13.  An invocation with a selected image that has finished ends in
    exactly one of two ways: a video URL with no error, shown in the video
    view; or an error message that is not empty with no video URL, shown on
    the upload form. *)
Theorem attempt_ends_with_video_or_error :
  forall env s b f,
    imageFile s = Some f ->
    run_finished (handleGenerateVideo env s b) = true ->
    let s' := run_state (handleGenerateVideo env s b) in
    (exists u, videoUrl s' = Some u /\ error s' = None
               /\ render s' = VideoPlayer u)
    \/ (exists m, error s' = Some m /\ m <> "" /\ videoUrl s' = None
                  /\ render s'
                     = UploadForm (Some m)
                         (if JS.truthy (imagePreview s) then imagePreview s else None)).
Proof.
  intros env s b f Hf Hfin s'. subst s'.
  destruct (run_state_with_image env s b f Hf) as (Hstate & _ & Hfinished).
  rewrite Hfinished in Hfin. rewrite Hstate.
  unfold generate_begin. rewrite Hf. cbn [fst].
  destruct (result (try_block env f)) as [videoBlob|e|]; [| |discriminate].
  - left. exists (blob_url (minted b)). repeat split.
  - right. exists (errorMessage e).
    pose proof (errorMessage_not_empty e) as Hne.
    cbn [generate_settle fst]. repeat split; auto.
    unfold render. cbn.
    destruct (errorMessage e) as [|a m]; [congruence|reflexivity].
Qed.

Lemma attempt_ends_with_video_or_error_sample :
  (exists u,
     videoUrl (run_state (handleGenerateVideo Sample.three_polls
                            (state Sample.selected) (browser Sample.selected)))
     = Some u
     /\ error (run_state (handleGenerateVideo Sample.three_polls
                            (state Sample.selected) (browser Sample.selected)))
        = None
     /\ render (run_state (handleGenerateVideo Sample.three_polls
                             (state Sample.selected) (browser Sample.selected)))
        = VideoPlayer u)
  \/ (exists m,
        error (run_state (handleGenerateVideo Sample.three_polls
                            (state Sample.selected) (browser Sample.selected)))
        = Some m
        /\ m <> ""
        /\ videoUrl (run_state (handleGenerateVideo Sample.three_polls
                                  (state Sample.selected) (browser Sample.selected)))
           = None
        /\ render (run_state (handleGenerateVideo Sample.three_polls
                                (state Sample.selected) (browser Sample.selected)))
           = UploadForm (Some m)
               (if JS.truthy (imagePreview (state Sample.selected))
                then imagePreview (state Sample.selected) else None)).
Proof.
  refine (attempt_ends_with_video_or_error Sample.three_polls
            (state Sample.selected) (browser Sample.selected) Sample.house _ _);
    reflexivity.
Defined.

(** ** The message shown while loading *)

Lemma indexOf_absent : forall xs x, ~ In x xs -> JS.indexOf xs x = (-1)%Z.
Proof.
  induction xs as [|y ys IH]; intros x Hx; [reflexivity|].
  cbn [JS.indexOf]. destruct (String.eqb_spec y x) as [->|Hne].
  - exfalso. apply Hx. now left.
  - rewrite IH; [reflexivity|]. intros Hin. apply Hx. now right.
Qed.

Lemma nextLoadingMessage_in_list : forall prev,
  In (nextLoadingMessage prev) loadingMessages.
Proof.
  intros prev. unfold nextLoadingMessage, loadingMessages_at.
  apply nth_In. pose proof (nextIndex_in_range prev) as H. lia.
Qed.

(** X14.  Whatever string the message cell holds, the interval's updater
    computes an index inside the list and returns an entry of the list; for
    a string that is not in the list ([indexOf] gives -1) that entry is the
    first one. *)
Theorem next_message_is_an_entry :
  forall prev,
    (0 <= nextIndex prev < Z.of_nat (length loadingMessages))%Z
    /\ In (nextLoadingMessage prev) loadingMessages
    /\ (~ In prev loadingMessages ->
        JS.indexOf loadingMessages prev = (-1)%Z
        /\ nextLoadingMessage prev = loadingMessages_at 0).
Proof.
  intros prev. split; [apply nextIndex_in_range|].
  split; [apply nextLoadingMessage_in_list|].
  intros Hout. pose proof (indexOf_absent loadingMessages prev Hout) as Hi.
  split; [exact Hi|].
  unfold nextLoadingMessage, nextIndex. rewrite Hi. reflexivity.
Qed.

(** ** Properties of every reachable configuration *)

Lemma play_preserves : forall (P : Config -> Prop),
  (forall ev c, P c -> P (react ev c)) ->
  forall evs c, P c -> P (play evs c).
Proof.
  intros P Hstep. induction evs as [|ev evs IH]; intros c Hc; [exact Hc|].
  apply IH, Hstep, Hc.
Qed.

Lemma handleFileChange_cases : forall file s b,
  handleFileChange file s b = (s, b)
  \/ (exists f,
        file = Some f
        /\ handleFileChange file s b
           = (setError None
                (setImagePreview (Some (blob_url (minted b)))
                   (setImageFile (Some f) s)),
              {| minted := S (minted b);
                 objectURLs := (blob_url (minted b), OfFile f) :: objectURLs b |}))
  \/ handleFileChange file s b
     = (setImagePreview None (setImageFile None (setError (Some invalidFileMessage) s)),
        b).
Proof.
  intros [f|] s b; [|now left].
  unfold handleFileChange. destruct (JS.startsWith (type f) "image/").
  - right. left. now exists f.
  - right. right. reflexivity.
Qed.

Lemma generate_begin_cases : forall s,
  (imageFile s = None
   /\ generate_begin s = (setError (Some noImageMessage) s, None))
  \/ (exists f,
        imageFile s = Some f
        /\ generate_begin s
           = (setLoadingMessage (loadingMessages_at 0)
                (setError None (setVideoUrl None (setIsLoading true s))),
              Some f)).
Proof.
  intros s. unfold generate_begin. destruct (imageFile s) as [f|].
  - right. now exists f.
  - left. split; reflexivity.
Qed.

Lemma message_in_list_react : forall ev c,
  In (loadingMessage (state c)) loadingMessages ->
  In (loadingMessage (state (react ev c))) loadingMessages.
Proof.
  intros ev c Hc. destruct ev as [file|env|n| |]; unfold react.
  - destruct (handleFileChange_cases file (state c) (browser c))
      as [-> | [(f & _ & ->) | ->]]; exact Hc.
  - destruct (generate_begin_cases (state c)) as [[_ ->]|(f & _ & ->)].
    + exact Hc.
    + cbn. now left.
  - destruct (nth_error (inflight c) n) as [[videoBlob|e|]|]; exact Hc.
  - cbn [state]. unfold tick. destruct (isLoading (state c)); [|exact Hc].
    apply nextLoadingMessage_in_list.
  - exact Hc.
Qed.

(** X15.  In every reachable configuration the loading message is one of
    the six entries of the list, so the loader never shows anything else. *)
Theorem loading_message_always_an_entry :
  forall c, reachable c -> In (loadingMessage (state c)) loadingMessages.
Proof.
  intros c [evs <-].
  apply (play_preserves (fun c => In (loadingMessage (state c)) loadingMessages)).
  - intros ev c0. apply message_in_list_react.
  - cbn. now left.
Qed.

Lemma loading_message_always_an_entry_sample :
  In (loadingMessage
        (state (play [Tick; Tick; Settle 0; ClickReset; Tick] sample_in_flight)))
     loadingMessages.
Proof.
  apply loading_message_always_an_entry.
  exists [FileChange (Some Sample.house); ClickGenerate Sample.three_polls;
          Tick; Tick; Settle 0; ClickReset; Tick].
  reflexivity.
Defined.

Lemma urls_registered_react : forall ev c,
  urls_registered c -> urls_registered (react ev c).
Proof.
  intros ev c [Hfile Hvideo]. destruct ev as [file|env|n| |]; unfold react.
  - destruct (handleFileChange_cases file (state c) (browser c))
      as [-> | [(f & _ & ->) | ->]].
    + split; assumption.
    + split; cbn.
      * intros f' Hf'. injection Hf' as <-.
        exists (blob_url (minted (browser c))). split; [reflexivity|now left].
      * intros u Hu. destruct (Hvideo u Hu) as [videoBlob Hin].
        exists videoBlob. now right.
    + split; cbn; [discriminate|exact Hvideo].
  - destruct (generate_begin_cases (state c)) as [[_ ->]|(f & _ & ->)].
    + split; assumption.
    + split; cbn; [exact Hfile|discriminate].
  - destruct (nth_error (inflight c) n) as [[videoBlob|e|]|];
      cbn [is_settled generate_settle createObjectURL].
    + split; cbn.
      * intros f Hf. destruct (Hfile f Hf) as (u & Hu & Hin).
        exists u. split; [exact Hu|now right].
      * intros u Hu. injection Hu as <-. exists videoBlob. now left.
    + split; assumption.
    + split; assumption.
    + split; assumption.
  - split; cbn [state browser].
    + unfold tick. destruct (isLoading (state c)); exact Hfile.
    + unfold tick. destruct (isLoading (state c)); exact Hvideo.
  - split; cbn; discriminate.
Qed.

(** X16.  In every reachable configuration the URLs held in state are live:
    when a file is stored, the preview is a URL registered in the browser
    for that very file, and a video URL in state is registered for a
    blob. *)
Theorem state_urls_are_registered :
  forall c, reachable c -> urls_registered c.
Proof.
  intros c [evs <-]. apply (play_preserves urls_registered).
  - apply urls_registered_react.
  - split; cbn; discriminate.
Qed.

Lemma state_urls_are_registered_sample :
  urls_registered
    (play [FileChange (Some Sample.house); ClickGenerate Sample.three_polls;
           Settle 0; FileChange (Some Sample.house)] initial_config).
Proof.
  apply state_urls_are_registered.
  exists [FileChange (Some Sample.house); ClickGenerate Sample.three_polls;
          Settle 0; FileChange (Some Sample.house)].
  reflexivity.
Defined.

Lemma loading_needs_attempt_react : forall ev c,
  (isLoading (state c) = true -> inflight c <> []) ->
  isLoading (state (react ev c)) = true -> inflight (react ev c) <> [].
Proof.
  intros ev c Hc. destruct ev as [file|env|n| |]; unfold react.
  - destruct (handleFileChange_cases file (state c) (browser c))
      as [-> | [(f & _ & ->) | ->]]; exact Hc.
  - destruct (generate_begin_cases (state c)) as [[_ ->]|(f & _ & ->)].
    + exact Hc.
    + cbn. intros _ Hnil. apply app_eq_nil in Hnil as [_ Hnil]. discriminate.
  - destruct (nth_error (inflight c) n) as [[videoBlob|e|]|]; cbn;
      try exact Hc; discriminate.
  - cbn [state inflight]. unfold tick.
    destruct (isLoading (state c)) eqn:E.
    + intros _. now apply Hc.
    + rewrite E. discriminate.
  - cbn. discriminate.
Qed.

(** X17.  In every reachable configuration, the loading flag is up only
    while some attempt started by a click has not yet run its [finally]. *)
Theorem loader_only_while_in_flight :
  forall c, reachable c -> isLoading (state c) = true -> inflight c <> [].
Proof.
  intros c [evs <-].
  apply (play_preserves
           (fun c => isLoading (state c) = true -> inflight c <> [])).
  - apply loading_needs_attempt_react.
  - cbn. discriminate.
Qed.

Lemma loader_only_while_in_flight_sample : inflight sample_in_flight <> [].
Proof.
  apply loader_only_while_in_flight.
  - exists [FileChange (Some Sample.house); ClickGenerate Sample.three_polls].
    reflexivity.
  - reflexivity.
Defined.

(** X18.  A reset does not cancel an attempt in flight.  When that attempt
    ends afterwards, its outcome is written into the reset state: a success
    puts its video URL in state and the video view on screen although no
    image is selected any more; a failure puts its error message on the
    empty upload form; an attempt still pending changes nothing. *)
Theorem late_outcome_lands_after_reset :
  forall c n r,
    nth_error (inflight c) n = Some r ->
    let c' := play [ClickReset; Settle n] c in
    (forall videoBlob, r = Ok videoBlob ->
       videoUrl (state c') = Some (blob_url (minted (browser c)))
       /\ render (state c') = VideoPlayer (blob_url (minted (browser c)))
       /\ imageFile (state c') = None
       /\ imagePreview (state c') = None
       /\ objectURLs (browser c')
          = (blob_url (minted (browser c)), OfBlob videoBlob)
            :: objectURLs (browser c)
       /\ inflight c' = remove_nth n (inflight c))
    /\ (forall e, r = Throw e ->
          error (state c') = Some (errorMessage e)
          /\ render (state c') = UploadForm (Some (errorMessage e)) None
          /\ imageFile (state c') = None
          /\ videoUrl (state c') = None
          /\ inflight c' = remove_nth n (inflight c))
    /\ (r = Pending -> c' = react ClickReset c).
Proof.
  intros c n r Hn c'. subst c'.
  unfold play. cbn [fold_left]. unfold react at 1.
  cbn [react inflight state browser]. rewrite Hn.
  split; [|split].
  - intros videoBlob ->. cbn. repeat split.
  - intros e ->. cbn. repeat split.
    pose proof (errorMessage_not_empty e) as Hne.
    unfold render. cbn. destruct (errorMessage e); [congruence|reflexivity].
  - intros ->. reflexivity.
Qed.

Lemma late_outcome_lands_after_reset_sample :
  videoUrl (state (play [ClickReset; Settle 0] sample_in_flight)) = Some "blob:1"
  /\ imageFile (state (play [ClickReset; Settle 0] sample_in_flight)) = None.
Proof.
  pose proof (late_outcome_lands_after_reset sample_in_flight 0 (Ok "mp4") eq_refl)
    as H.
  cbv zeta in H. destruct H as [Hok _].
  destruct (Hok "mp4" eq_refl) as (Hvideo & _ & Hfile & _).
  split; [exact Hvideo|exact Hfile].
Defined.

Lemma store_grows_react : forall ev c entry,
  In entry (objectURLs (browser c)) ->
  In entry (objectURLs (browser (react ev c))).
Proof.
  intros ev c entry Hin. destruct ev as [file|env|n| |]; unfold react.
  - destruct (handleFileChange_cases file (state c) (browser c))
      as [-> | [(f & _ & ->) | ->]]; cbn; auto.
  - destruct (generate_begin_cases (state c)) as [[_ ->]|(f & _ & ->)]; exact Hin.
  - destruct (nth_error (inflight c) n) as [[videoBlob|e|]|]; cbn; auto.
  - exact Hin.
  - exact Hin.
Qed.

(** X19.  No handler releases an object URL: an entry of the browser's
    store stays there through any sequence of file changes, clicks, ticks,
    attempts ending and resets. *)
Theorem object_urls_are_never_released :
  forall evs c entry,
    In entry (objectURLs (browser c)) ->
    In entry (objectURLs (browser (play evs c))).
Proof.
  intros evs c entry.
  revert c. induction evs as [|ev evs IH]; intros c Hin; [exact Hin|].
  apply IH, store_grows_react, Hin.
Qed.

Lemma object_urls_are_never_released_sample :
  In ("blob:0", OfFile Sample.house)
     (objectURLs
        (browser (play [ClickGenerate Sample.three_polls; Settle 0; ClickReset;
                        FileChange (Some Sample.notes); ClickReset]
                       Sample.selected))).
Proof.
  apply object_urls_are_never_released. left. reflexivity.
Defined.

(** X20.  The handler has no guard against running twice: the only cell it
    reads is the stored file.  Two states with the same stored file, one of
    them already loading or showing a video or an error, give the same
    calls and the same ending. *)
Theorem generate_reads_only_the_file :
  forall env s1 b1 s2 b2,
    imageFile s1 = imageFile s2 ->
    run_trace (handleGenerateVideo env s1 b1)
    = run_trace (handleGenerateVideo env s2 b2)
    /\ run_finished (handleGenerateVideo env s1 b1)
       = run_finished (handleGenerateVideo env s2 b2)
    /\ error (run_state (handleGenerateVideo env s1 b1))
       = error (run_state (handleGenerateVideo env s2 b2)).
Proof.
  intros env s1 b1 s2 b2 H.
  unfold handleGenerateVideo, generate_begin.
  rewrite <- H. destruct (imageFile s1) as [f|]; [|repeat split].
  destruct (result (try_block env f)) as [videoBlob|e|]; cbn; repeat split.
Qed.

Lemma generate_reads_only_the_file_sample :
  run_trace (handleGenerateVideo Sample.two_polls
               (setIsLoading true (state Sample.selected)) (browser Sample.selected))
  = run_trace (handleGenerateVideo Sample.two_polls
                 (state Sample.selected) fresh_browser).
Proof.
  refine (proj1
    (generate_reads_only_the_file Sample.two_polls
       (setIsLoading true (state Sample.selected)) (browser Sample.selected)
       (state Sample.selected) fresh_browser _)).
  reflexivity.
Defined.
